(** * mapcache (geocache) configuration compiler: src/mapcache/src/configuration.c

    A shallow embedding of the configuration parser and the properties of
    its specification.  The C functions become Rocq functions of the same
    name.  A [void] function that writes through [ctx] and [config] returns
    the new context and the new configuration; a loop with an early [return]
    is a recursive function over the sibling list whose result says whether
    the function returned from inside the loop. *)

From Stdlib Require Import ZArith String Ascii List Bool Lia DecimalString.
From stdpp Require Import base option list gmap strings.

Local Open Scope Z_scope.

(** ** C library *)

Module LibC.

(** [int] is 32 bits wide and [long] 64 bits (LP64, the Unix targets of
    the Apache module). *)
Definition INT_BITS : Z := 32.
Definition LONG_MAX : Z := 2 ^ 63 - 1.
Definition LONG_MIN : Z := - 2 ^ 63.

(** The conversion [(int)x] of a [long]: reduction modulo 2^32 into the
    signed range. *)
Definition int_of_long (x : Z) : Z :=
  (x + 2 ^ (INT_BITS - 1)) mod 2 ^ INT_BITS - 2 ^ (INT_BITS - 1).

Definition strcmp (a b : string) : Z :=
  match String.compare a b with Eq => 0 | Lt => -1 | Gt => 1 end.

Definition strlen (s : string) : Z := Z.of_nat (String.length s).

Definition isspace (c : ascii) : bool :=
  let n := nat_of_ascii c in
  (Nat.eqb n 32 || (Nat.leb 9 n && Nat.leb n 13))%bool.

Definition digit_of (c : ascii) : option Z :=
  let n := nat_of_ascii c in
  if (Nat.leb 48 n && Nat.leb n 57)%bool then Some (Z.of_nat n - 48) else None.

Fixpoint skip_spaces (s : string) : string :=
  match s with
  | String c r => if isspace c then skip_spaces r else s
  | EmptyString => s
  end.

(** The digits at the head of [s], accumulated in base 10 onto [acc], and
    the first character that is not a digit onwards. *)
Fixpoint read_digits (acc : Z) (s : string) : Z * string :=
  match s with
  | String c r =>
      match digit_of c with
      | Some d => read_digits (10 * acc + d) r
      | None => (acc, s)
      end
  | EmptyString => (acc, s)
  end.

Definition clamp_long (x : Z) : Z :=
  if x <? LONG_MIN then LONG_MIN else if LONG_MAX <? x then LONG_MAX else x.

Definition starts_with_digit (s : string) : bool :=
  match s with
  | String c _ => match digit_of c with Some _ => true | None => false end
  | EmptyString => false
  end.

(** [strtol(nptr, &endptr, 10)]: the value and the text [endptr] points
    at.  White space is skipped, one sign is read, then the digits; the
    value saturates at the bounds of [long]; without a digit the value is
    0 and [endptr] is [nptr]. *)
Definition strtol (nptr : string) : Z * string :=
  let s := skip_spaces nptr in
  let '(neg, s1) :=
    match s with
    | String "-" r => (true, r)
    | String "+" r => (false, r)
    | _ => (false, s)
    end in
  if starts_with_digit s1 then
    let '(v, endptr) := read_digits 0 s1 in
    (clamp_long (if neg then - v else v), endptr)
  else (0, nptr).

(** The conversion [%d] of [printf]. *)
Definition printf_d (z : Z) : string := NilZero.string_of_int (Z.to_int z).

(** [*endptr == 0] *)
Definition at_end (endptr : string) : bool :=
  match endptr with EmptyString => true | _ => false end.

End LibC.

(** ** libxml2 trees *)

Module LibXml.

Inductive xmlElementType := XML_ELEMENT_NODE | XML_TEXT_NODE | XML_COMMENT_NODE.

(** An attribute: its name and [children], the value nodes.  [children] is
    given by the string [xmlNodeListGetString] builds from it, [None] for
    the null pointer. *)
Record xmlAttr := XmlAttr {
  attr_name : option string;
  attr_children : option string
}.

(** A node; the [next] chain of its children is a list. *)
#[warnings="-register-all"]
Inductive xmlNode := XmlNode {
  node_type : xmlElementType;
  node_name : string;
  properties : list xmlAttr;
  children : list xmlNode;
  content : string
}.

Definition xmlStrcmp (a b : string) : Z := LibC.strcmp a b.

(** The character data below a node, in document order. *)
Fixpoint node_text (n : xmlNode) : string :=
  match node_type n with
  | XML_ELEMENT_NODE =>
      (fix texts (l : list xmlNode) : string :=
         match l with
         | [] => ""
         | c :: r => node_text c +:+ texts r
         end) (children n)
  | XML_TEXT_NODE => content n
  | XML_COMMENT_NODE => ""
  end.

Definition xmlNodeGetContent (n : xmlNode) : string :=
  match node_type n with
  | XML_ELEMENT_NODE => node_text n
  | _ => content n
  end.

Definition is_element (n : xmlNode) : bool :=
  match node_type n with XML_ELEMENT_NODE => true | _ => false end.

(** Shorthands to write documents. *)
Definition attr (k v : string) : xmlAttr := XmlAttr (Some k) (Some v).
Definition elem (tag : string) (props : list xmlAttr) (ch : list xmlNode) : xmlNode :=
  XmlNode XML_ELEMENT_NODE tag props ch "".
Definition text (s : string) : xmlNode := XmlNode XML_TEXT_NODE "text" [] [] s.
Definition leaf (tag s : string) : xmlNode := elem tag [] [text s].

End LibXml.

Import LibC LibXml.

(** [!strcmp(a, b)] and [!xmlStrcmp(a, b)] *)
Definition zero (x : Z) : bool := x =? 0.

(** ** The error context *)

Inductive geocache_error_code := GEOCACHE_PARSE_ERROR | GEOCACHE_DISK_ERROR.

Inductive geocache_status := GEOCACHE_SUCCESS | GEOCACHE_FAILURE.

(** [ctx->set_error] is a method of the context and its body is not part of
    configuration.c.  The context keeps every report, oldest first, so that
    the first and the latest one can both be read. *)
Record geocache_context := Ctx {
  reports : list (geocache_error_code * string)
}.

Definition set_error (ctx : geocache_context) (code : geocache_error_code)
    (msg : string) : geocache_context :=
  Ctx (reports ctx ++ [(code, msg)]).

(** Modelled from the spec: the macro GC_HAS_ERROR of geocache.h, the test
    of the shared error slot that every caller makes after a step that can
    fail. *)
Definition GC_HAS_ERROR (ctx : geocache_context) : bool :=
  match reports ctx with [] => false | _ => true end.

(** The double quote of the messages. *)
Definition dq : string := String (ascii_of_nat 34) EmptyString.
Definition quoted (s : string) : string := dq +:+ s +:+ dq.

(** ** extractNameAndTypeAttributes *)

(** The [while] loop: it stops at the end of the list and at the first
    attribute without a name or without children. *)
Fixpoint extract_loop (attribute : list xmlAttr) (name type : option string)
    : option string * option string :=
  match attribute with
  | a :: next =>
      match attr_name a, attr_children a with
      | Some an, Some value =>
          let name := if zero (xmlStrcmp an "name") then Some value else name in
          let type := if zero (xmlStrcmp an "type") then Some value else type in
          extract_loop next name type
      | _, _ => (name, type)
      end
  | [] => (name, type)
  end.

Definition extractNameAndTypeAttributes (attribute : list xmlAttr)
    : geocache_status * option string * option string :=
  let '(name, type) := extract_loop attribute None None in
  match name, type with
  | Some _, Some _ => (GEOCACHE_SUCCESS, name, type)
  | _, _ => (GEOCACHE_FAILURE, name, type)
  end.

(** ** Entities *)

Inductive geocache_compression_type :=
  GEOCACHE_COMPRESSION_BEST | GEOCACHE_COMPRESSION_FAST | GEOCACHE_COMPRESSION_DEFAULT.

(** Modelled from the spec: the image formats that the constructors of the
    image library build (imageio, not in configuration.c): a PNG with a
    compression effort, a PNG quantized to a number of colors, a JPEG with a
    quality; each carries the name it was created with. *)
Inductive geocache_image_format :=
| PngFormat (name : string) (compression : geocache_compression_type)
| PngQFormat (name : string) (compression : geocache_compression_type) (ncolors : Z)
| JpegFormat (name : string) (quality : Z).

Definition geocache_imageio_create_png_format (name : string)
    (compression : geocache_compression_type) : option geocache_image_format :=
  Some (PngFormat name compression).

Definition geocache_imageio_create_png_q_format (name : string)
    (compression : geocache_compression_type) (ncolors : Z)
    : option geocache_image_format :=
  Some (PngQFormat name compression ncolors).

Definition geocache_imageio_create_jpeg_format (name : string) (quality : Z)
    : option geocache_image_format :=
  Some (JpegFormat name quality).

(** Sources and caches: the fields configuration.c writes.  What a variant
    keeps for itself is behind its two methods. *)
Record geocache_source := Source {
  source_name : option string;
  source_srs : option string
}.

Record geocache_cache := Cache {
  cache_name : option string
}.

(** The methods of the source variant ([wms]) and of the cache variant
    ([disk]).  Their bodies live with the variants; a method gets the
    context and the object and gives both back. *)
Class source_driver := {
  geocache_source_wms_create : geocache_context -> option geocache_source;
  source_configuration_parse :
    geocache_context -> xmlNode -> geocache_source -> geocache_context * geocache_source;
  source_configuration_check :
    geocache_context -> geocache_source -> geocache_context * geocache_source
}.

Class cache_driver := {
  geocache_cache_disk_create : geocache_context -> option geocache_cache;
  cache_configuration_parse :
    geocache_context -> xmlNode -> geocache_cache -> geocache_context * geocache_cache;
  cache_configuration_check :
    geocache_context -> geocache_cache -> geocache_context * geocache_cache
}.

(** The C type [double]: its [==], its zero, [strtod] with the text that
    [endptr] points at, and the conversion [%f] of [printf]. *)
Class c_double (double : Type) := {
  double_eq : double -> double -> bool;
  double_zero : double;
  strtod : string -> double * string;
  printf_f : double -> string
}.

(** What the program asks of the file system and of the XML reader:
    [xmlReadFile] followed by [xmlDocGetRootElement], and whether
    [apr_dir_make_recursive] and [apr_file_open] return [APR_SUCCESS]. *)
Class platform := {
  xmlReadFile : string -> option xmlNode;
  apr_dir_make_recursive : string -> bool;
  apr_file_open : string -> bool
}.

Inductive geocache_service := ServiceWms | ServiceTms.

(** Modelled from the spec: the indices of the protocol services in the
    fixed-size array of the configuration (an enumeration of geocache.h). *)
Definition GEOCACHE_SERVICE_WMS : nat := 0.
Definition GEOCACHE_SERVICE_TMS : nat := 1.
Definition GEOCACHE_SERVICES_COUNT : nat := 2.

Definition geocache_service_wms_create (ctx : geocache_context) : option geocache_service :=
  Some ServiceWms.
Definition geocache_service_tms_create (ctx : geocache_context) : option geocache_service :=
  Some ServiceTms.

Section Tileset.

Context {double : Type}.

Record geocache_tileset := Tileset {
  tileset_name : option string;
  tileset_cache : option geocache_cache;
  tileset_source : option geocache_source;
  tileset_format : option geocache_image_format;
  tileset_srs : option string;
  tile_sx : Z;
  tile_sy : Z;
  extent : double * double * double * double;
  resolutions : list double;
  levels : Z;
  metasize_x : Z;
  metasize_y : Z;
  metabuffer : Z;
  expires : Z
}.

Definition extent0 (t : geocache_tileset) : double := (extent t).1.1.1.
Definition extent1 (t : geocache_tileset) : double := (extent t).1.1.2.
Definition extent2 (t : geocache_tileset) : double := (extent t).1.2.
Definition extent3 (t : geocache_tileset) : double := (extent t).2.

(** The configuration.  The [reporting] mode, a constant, and the back
    pointer of a tileset to its configuration are left out. *)
Record geocache_cfg := Cfg {
  caches : gmap string geocache_cache;
  sources : gmap string geocache_source;
  tilesets : gmap string geocache_tileset;
  image_formats : gmap string geocache_image_format;
  merge_format : option geocache_image_format;
  lockdir : string;
  services : list (option geocache_service)
}.

Definition with_caches (c : geocache_cfg) v :=
  Cfg v (sources c) (tilesets c) (image_formats c) (merge_format c) (lockdir c) (services c).
Definition with_sources (c : geocache_cfg) v :=
  Cfg (caches c) v (tilesets c) (image_formats c) (merge_format c) (lockdir c) (services c).
Definition with_tilesets (c : geocache_cfg) v :=
  Cfg (caches c) (sources c) v (image_formats c) (merge_format c) (lockdir c) (services c).
Definition with_image_formats (c : geocache_cfg) v :=
  Cfg (caches c) (sources c) (tilesets c) v (merge_format c) (lockdir c) (services c).
Definition with_merge_format (c : geocache_cfg) v :=
  Cfg (caches c) (sources c) (tilesets c) (image_formats c) v (lockdir c) (services c).
Definition with_lockdir (c : geocache_cfg) v :=
  Cfg (caches c) (sources c) (tilesets c) (image_formats c) (merge_format c) v (services c).
Definition with_services (c : geocache_cfg) v :=
  Cfg (caches c) (sources c) (tilesets c) (image_formats c) (merge_format c) (lockdir c) v.

(** ** The registries: [apr_hash_get] and [apr_hash_set] on string keys *)

Definition geocache_configuration_get_source (config : geocache_cfg) (key : string) :=
  sources config !! key.
Definition geocache_configuration_get_cache (config : geocache_cfg) (key : string) :=
  caches config !! key.
Definition geocache_configuration_get_tileset (config : geocache_cfg) (key : string) :=
  tilesets config !! key.
Definition geocache_configuration_get_image_format (config : geocache_cfg) (key : string) :=
  image_formats config !! key.

Definition geocache_configuration_add_source (config : geocache_cfg)
    (source : geocache_source) (key : string) : geocache_cfg :=
  with_sources config (<[key := source]> (sources config)).

Definition geocache_configuration_add_tileset (config : geocache_cfg)
    (tileset : geocache_tileset) (key : string) : geocache_cfg :=
  with_tilesets config (<[key := tileset]> (tilesets config)).

Definition geocache_configuration_add_cache (config : geocache_cfg)
    (cache : geocache_cache) (key : string) : geocache_cfg :=
  with_caches config (<[key := cache]> (caches config)).

Definition geocache_configuration_add_image_format (config : geocache_cfg)
    (format : option geocache_image_format) (key : string) : geocache_cfg :=
  match format with
  | Some f => with_image_formats config (<[key := f]> (image_formats config))
  | None => with_image_formats config (delete key (image_formats config))
  end.

(** ** geocache_configuration_create *)

Definition geocache_configuration_create : geocache_cfg :=
  let cfg := Cfg ∅ ∅ ∅ ∅ None "" (replicate GEOCACHE_SERVICES_COUNT None) in
  let cfg := geocache_configuration_add_image_format cfg
    (geocache_imageio_create_png_format "PNG" GEOCACHE_COMPRESSION_FAST) "PNG" in
  let cfg := geocache_configuration_add_image_format cfg
    (geocache_imageio_create_png_q_format "PNG" GEOCACHE_COMPRESSION_FAST 256) "PNG8" in
  let cfg := geocache_configuration_add_image_format cfg
    (geocache_imageio_create_jpeg_format "JPEG" 95) "JPEG" in
  let cfg := with_merge_format cfg (geocache_configuration_get_image_format cfg "PNG") in
  with_lockdir cfg "/tmp/geocache_locks".

End Tileset.

Arguments geocache_tileset : clear implicits.
Arguments geocache_cfg : clear implicits.

(** ** The parsers *)

Section Parser.

Context {double : Type} {DBL : c_double double}.
Context {SRC : source_driver} {CCH : cache_driver} {SYS : platform}.

Local Abbreviation cfg := (geocache_cfg double).
Local Abbreviation tileset := (geocache_tileset double).

(** [!s || !strlen(s)] fails exactly when this is [Some]. *)
Definition nonempty (s : option string) : option string :=
  match s with
  | Some s' => if zero (strlen s') then None else Some s'
  | None => None
  end.

(** *** The list helpers of the utility module *)

(** The tokens [apr_strtok] yields for a one-character separator: the
    maximal runs without the separator, empty runs dropped. *)
Fixpoint tokens_from (delim : ascii) (cur s : string) : list string :=
  match s with
  | String c r =>
      if Ascii.eqb c delim
      then match cur with
           | EmptyString => tokens_from delim "" r
           | _ => cur :: tokens_from delim "" r
           end
      else tokens_from delim (cur +:+ String c "") r
  | EmptyString => match cur with EmptyString => [] | _ => [cur] end
  end.

Definition tokens (delim : ascii) (s : string) : list string := tokens_from delim "" s.

Fixpoint parse_doubles (toks : list string) : option (list double) :=
  match toks with
  | t :: r =>
      let '(v, endptr) := strtod t in
      if at_end endptr
      then match parse_doubles r with Some l => Some (v :: l) | None => None end
      else None
  | [] => Some []
  end.

Fixpoint parse_ints (toks : list string) : option (list Z) :=
  match toks with
  | t :: r =>
      let '(v, endptr) := strtol t in
      if at_end endptr
      then match parse_ints r with Some l => Some (int_of_long v :: l) | None => None end
      else None
  | [] => Some []
  end.

(** Modelled from the spec: geocache_util_extract_double_list of the utility
    module (not in configuration.c).  The text is a list of numbers
    separated by the given character; every token must parse to its end;
    the numbers are kept in their order and their count is the length of
    the list.  A failure leaves no numbers. *)
Definition geocache_util_extract_double_list (args : string) (delim : ascii)
    : geocache_status * list double :=
  match parse_doubles (tokens delim args) with
  | Some numbers => (GEOCACHE_SUCCESS, numbers)
  | None => (GEOCACHE_FAILURE, [])
  end.

(** Modelled from the spec: geocache_util_extract_int_list of the utility
    module, the same for integers. *)
Definition geocache_util_extract_int_list (args : string) (delim : ascii)
    : geocache_status * list Z :=
  match parse_ints (tokens delim args) with
  | Some numbers => (GEOCACHE_SUCCESS, numbers)
  | None => (GEOCACHE_FAILURE, [])
  end.

Definition is_success (rc : geocache_status) : bool :=
  match rc with GEOCACHE_SUCCESS => true | GEOCACHE_FAILURE => false end.

(** Modelled from the spec: geocache_tileset_create of the tileset module
    (not in configuration.c).  A new tileset has metatiles of 1 by 1 and a
    metabuffer of 0; its references, its srs and its format are unset, it
    has no resolutions, and the other numbers are zero. *)
Definition geocache_tileset_create (ctx : geocache_context) : tileset :=
  Tileset None None None None None 0 0
    (double_zero, double_zero, double_zero, double_zero) [] 0 1 1 0 0.

Definition set_name (t : tileset) v : tileset :=
  Tileset v (tileset_cache t) (tileset_source t) (tileset_format t) (tileset_srs t)
    (tile_sx t) (tile_sy t) (extent t) (resolutions t) (levels t)
    (metasize_x t) (metasize_y t) (metabuffer t) (expires t).
Definition set_cache (t : tileset) v : tileset :=
  Tileset (tileset_name t) v (tileset_source t) (tileset_format t) (tileset_srs t)
    (tile_sx t) (tile_sy t) (extent t) (resolutions t) (levels t)
    (metasize_x t) (metasize_y t) (metabuffer t) (expires t).
Definition set_source (t : tileset) v : tileset :=
  Tileset (tileset_name t) (tileset_cache t) v (tileset_format t) (tileset_srs t)
    (tile_sx t) (tile_sy t) (extent t) (resolutions t) (levels t)
    (metasize_x t) (metasize_y t) (metabuffer t) (expires t).
Definition set_format (t : tileset) v : tileset :=
  Tileset (tileset_name t) (tileset_cache t) (tileset_source t) v (tileset_srs t)
    (tile_sx t) (tile_sy t) (extent t) (resolutions t) (levels t)
    (metasize_x t) (metasize_y t) (metabuffer t) (expires t).
Definition set_srs (t : tileset) v : tileset :=
  Tileset (tileset_name t) (tileset_cache t) (tileset_source t) (tileset_format t) v
    (tile_sx t) (tile_sy t) (extent t) (resolutions t) (levels t)
    (metasize_x t) (metasize_y t) (metabuffer t) (expires t).
Definition set_size (t : tileset) sx sy : tileset :=
  Tileset (tileset_name t) (tileset_cache t) (tileset_source t) (tileset_format t)
    (tileset_srs t) sx sy (extent t) (resolutions t) (levels t)
    (metasize_x t) (metasize_y t) (metabuffer t) (expires t).
Definition set_extent (t : tileset) v : tileset :=
  Tileset (tileset_name t) (tileset_cache t) (tileset_source t) (tileset_format t)
    (tileset_srs t) (tile_sx t) (tile_sy t) v (resolutions t) (levels t)
    (metasize_x t) (metasize_y t) (metabuffer t) (expires t).
Definition set_resolutions (t : tileset) v n : tileset :=
  Tileset (tileset_name t) (tileset_cache t) (tileset_source t) (tileset_format t)
    (tileset_srs t) (tile_sx t) (tile_sy t) (extent t) v n
    (metasize_x t) (metasize_y t) (metabuffer t) (expires t).
Definition set_metasize (t : tileset) x y : tileset :=
  Tileset (tileset_name t) (tileset_cache t) (tileset_source t) (tileset_format t)
    (tileset_srs t) (tile_sx t) (tile_sy t) (extent t) (resolutions t) (levels t)
    x y (metabuffer t) (expires t).
Definition set_metabuffer (t : tileset) v : tileset :=
  Tileset (tileset_name t) (tileset_cache t) (tileset_source t) (tileset_format t)
    (tileset_srs t) (tile_sx t) (tile_sy t) (extent t) (resolutions t) (levels t)
    (metasize_x t) (metasize_y t) v (expires t).
Definition set_expires (t : tileset) v : tileset :=
  Tileset (tileset_name t) (tileset_cache t) (tileset_source t) (tileset_format t)
    (tileset_srs t) (tile_sx t) (tile_sy t) (extent t) (resolutions t) (levels t)
    (metasize_x t) (metasize_y t) (metabuffer t) v.

(** *** parseSource *)

(** The loop over the children of a source: the last [srs] child wins. *)
Fixpoint source_children (cur_node : list xmlNode) (source : geocache_source)
    : geocache_source :=
  match cur_node with
  | n :: next =>
      if negb (is_element n) then source_children next source
      else if zero (xmlStrcmp (node_name n) "srs")
      then source_children next (Source (source_name source) (Some (xmlNodeGetContent n)))
      else source_children next source
  | [] => source
  end.

Definition parseSource (ctx : geocache_context) (node : xmlNode) (config : cfg)
    : geocache_context * cfg :=
  if negb (zero (xmlStrcmp (node_name node) "source")) then
    (set_error ctx GEOCACHE_PARSE_ERROR
       ("SEVERE: found tag " +:+ node_name node +:+ " instead of <source>"), config)
  else
  let '(_, name, type) := extractNameAndTypeAttributes (properties node) in
  match nonempty name with
  | None =>
      (set_error ctx GEOCACHE_PARSE_ERROR
         ("mandatory attribute " +:+ quoted "name" +:+ " not found in <source>"), config)
  | Some name =>
      (* check we don't already have a source defined with this name *)
      match geocache_configuration_get_source config name with
      | Some _ =>
          (set_error ctx GEOCACHE_PARSE_ERROR
             ("duplicate source with name " +:+ quoted name), config)
      | None =>
      match nonempty type with
      | None =>
          (set_error ctx GEOCACHE_PARSE_ERROR
             ("mandatory attribute " +:+ quoted "type" +:+ " not found in <source>"), config)
      | Some type =>
          if zero (strcmp type "wms") then
            match geocache_source_wms_create ctx with
            | None =>
                (set_error ctx GEOCACHE_PARSE_ERROR
                   ("failed to parse source " +:+ quoted name), config)
            | Some source =>
                let source := Source (Some name) (source_srs source) in
                let source := source_children (children node) source in
                let '(ctx, source) := source_configuration_parse ctx node source in
                if GC_HAS_ERROR ctx then (ctx, config) else
                let '(ctx, source) := source_configuration_check ctx source in
                if GC_HAS_ERROR ctx then (ctx, config) else
                (ctx, geocache_configuration_add_source config source name)
            end
          else
            (set_error ctx GEOCACHE_PARSE_ERROR
               ("unknown source type " +:+ type +:+ " for source " +:+ quoted name), config)
      end
      end
  end.

(** *** parseFormat *)

(** The loop over the children of a PNG format.  [inl] is a [return] from
    inside the loop, with the context it leaves; [inr] is the end of the
    loop, with the locals [colors] and [compression]. *)
Fixpoint png_children (ctx : geocache_context) (name : string)
    (cur_node : list xmlNode) (colors : Z) (compression : geocache_compression_type)
    : geocache_context + Z * geocache_compression_type :=
  match cur_node with
  | n :: next =>
      if negb (is_element n) then png_children ctx name next colors compression
      else if zero (xmlStrcmp (node_name n) "compression") then
        let value := xmlNodeGetContent n in
        if zero (xmlStrcmp value "fast") then
          png_children ctx name next colors GEOCACHE_COMPRESSION_FAST
        else if zero (xmlStrcmp value "best") then
          png_children ctx name next colors GEOCACHE_COMPRESSION_BEST
        else
          inl (set_error ctx GEOCACHE_PARSE_ERROR
                 ("unknown compression type " +:+ value +:+ " for format " +:+ quoted name))
      else if zero (xmlStrcmp (node_name n) "colors") then
        let value := xmlNodeGetContent n in
        let '(l, endptr) := strtol value in
        let colors := int_of_long l in
        if negb (at_end endptr) || (colors <? 2) || (colors >? 256) then
          inl (set_error ctx GEOCACHE_PARSE_ERROR
                 ("failed to parse colors " +:+ quoted value +:+ " for format "
                  +:+ quoted name +:+ "(expecting an  integer between 2 and 256 "
                  +:+ "eg <colors>256</colors>"))
        else png_children ctx name next colors compression
      else
        inl (set_error ctx GEOCACHE_PARSE_ERROR
               ("unknown tag " +:+ node_name n +:+ " for format " +:+ quoted name))
  | [] => inr (colors, compression)
  end.

(** The loop over the children of a JPEG format. *)
Fixpoint jpeg_children (ctx : geocache_context) (name : string)
    (cur_node : list xmlNode) (quality : Z) : geocache_context + Z :=
  match cur_node with
  | n :: next =>
      if negb (is_element n) then jpeg_children ctx name next quality
      else if zero (xmlStrcmp (node_name n) "quality") then
        let value := xmlNodeGetContent n in
        let '(l, endptr) := strtol value in
        let quality := int_of_long l in
        if negb (at_end endptr) || (quality <? 1) || (quality >? 100) then
          inl (set_error ctx GEOCACHE_PARSE_ERROR
                 ("failed to parse quality " +:+ quoted value +:+ " for format "
                  +:+ quoted name +:+ "(expecting an  integer between 1 and 100 "
                  +:+ "eg <quality>90</quality>"))
        else jpeg_children ctx name next quality
      else jpeg_children ctx name next quality
  | [] => inr quality
  end.

Definition parseFormat (ctx : geocache_context) (node : xmlNode) (config : cfg)
    : geocache_context * cfg :=
  let ctx :=
    if negb (zero (xmlStrcmp (node_name node) "format"))
    then set_error ctx GEOCACHE_PARSE_ERROR
           ("SEVERE: <" +:+ node_name node +:+ "> is not a format tag")
    else ctx in
  let '(_, name, type) := extractNameAndTypeAttributes (properties node) in
  match nonempty name with
  | None =>
      (set_error ctx GEOCACHE_PARSE_ERROR
         ("mandatory attribute " +:+ quoted "name" +:+ " not found in <format>"), config)
  | Some name =>
  match nonempty type with
  | None =>
      (set_error ctx GEOCACHE_PARSE_ERROR
         ("mandatory attribute " +:+ quoted "type" +:+ " not found in <format>"), config)
  | Some type =>
      let built :=
        if zero (strcmp type "PNG") then
          match png_children ctx name (children node) (-1) GEOCACHE_COMPRESSION_DEFAULT with
          | inl ctx' => inl ctx'
          | inr (colors, compression) =>
              if colors =? -1
              then inr (geocache_imageio_create_png_format name compression)
              else inr (geocache_imageio_create_png_q_format name compression colors)
          end
        else if zero (strcmp type "JPEG") then
          match jpeg_children ctx name (children node) 95 with
          | inl ctx' => inl ctx'
          | inr quality => inr (geocache_imageio_create_jpeg_format name quality)
          end
        else
          inl (set_error ctx GEOCACHE_PARSE_ERROR
                 ("unknown format type " +:+ type +:+ " for format " +:+ quoted name)) in
      match built with
      | inl ctx' => (ctx', config)
      | inr None =>
          (set_error ctx GEOCACHE_PARSE_ERROR
             ("failed to parse format " +:+ quoted name), config)
      | inr (Some format) =>
          (ctx, geocache_configuration_add_image_format config (Some format) name)
      end
  end
  end.

(** *** parseCache *)

Definition parseCache (ctx : geocache_context) (node : xmlNode) (config : cfg)
    : geocache_context * cfg :=
  if negb (zero (xmlStrcmp (node_name node) "cache")) then
    (set_error ctx GEOCACHE_PARSE_ERROR
       ("SEVERE: <" +:+ node_name node +:+ "> is not a cache tag"), config)
  else
  let '(_, name, type) := extractNameAndTypeAttributes (properties node) in
  match nonempty name with
  | None =>
      (set_error ctx GEOCACHE_PARSE_ERROR
         ("mandatory attribute " +:+ quoted "name" +:+ " not found in <cache>"), config)
  | Some name =>
      (* check we don't already have a cache defined with this name *)
      match geocache_configuration_get_cache config name with
      | Some _ =>
          (set_error ctx GEOCACHE_PARSE_ERROR
             ("duplicate cache with name " +:+ quoted name), config)
      | None =>
      match nonempty type with
      | None =>
          (set_error ctx GEOCACHE_PARSE_ERROR
             ("mandatory attribute " +:+ quoted "type" +:+ " not found in <cache>"), config)
      | Some type =>
          if zero (strcmp type "disk") then
            match geocache_cache_disk_create ctx with
            | None =>
                (set_error ctx GEOCACHE_PARSE_ERROR
                   ("failed to parse cache " +:+ quoted name), config)
            | Some cache =>
                let cache := Cache (Some name) in
                let '(ctx, cache) := cache_configuration_parse ctx node cache in
                if GC_HAS_ERROR ctx then (ctx, config) else
                let '(ctx, cache) := cache_configuration_check ctx cache in
                if GC_HAS_ERROR ctx then (ctx, config) else
                (ctx, geocache_configuration_add_cache config cache name)
            end
          else
            (set_error ctx GEOCACHE_PARSE_ERROR
               ("unknown cache type " +:+ type +:+ " for cache " +:+ quoted name), config)
      end
      end
  end.

(** *** parseTileset *)

Definition nth_int (values : list Z) (i : nat) : Z := nth i values 0.
Definition nth_double (values : list double) (i : nat) : double := nth i values double_zero.

(** The body of the loop over the children of a tileset, for the child
    [n].  [inl] is a [return] from inside the loop, [inr] the tileset with
    which the loop goes on.  A child that is not an element or whose tag is
    none of the ten is skipped. *)
Definition tileset_child (ctx : geocache_context) (name : string) (config : cfg)
    (n : xmlNode) (t : tileset) : geocache_context + tileset :=
  let value := xmlNodeGetContent n in
  if negb (is_element n) then inr t
  else if zero (xmlStrcmp (node_name n) "cache") then
    match geocache_configuration_get_cache config value with
    | None =>
        inl (set_error ctx GEOCACHE_PARSE_ERROR
               ("tileset " +:+ quoted name +:+ " references cache " +:+ quoted value
                +:+ "," +:+ " but it is not configured"))
    | Some cache => inr (set_cache t (Some cache))
    end
  else if zero (xmlStrcmp (node_name n) "source") then
    match geocache_configuration_get_source config value with
    | None =>
        inl (set_error ctx GEOCACHE_PARSE_ERROR
               ("tileset " +:+ quoted name +:+ " references source " +:+ quoted value
                +:+ "," +:+ " but it is not configured"))
    | Some source => inr (set_source t (Some source))
    end
  else if zero (xmlStrcmp (node_name n) "srs") then
    inr (set_srs t (Some value))
  else if zero (xmlStrcmp (node_name n) "size") then
    let '(rc, sizes) := geocache_util_extract_int_list value " " in
    let nsizes := Z.of_nat (length sizes) in
    if negb (is_success rc) || negb (nsizes =? 2) then
      inl (set_error ctx GEOCACHE_PARSE_ERROR
             ("failed to parse size array " +:+ value +:+ "."
              +:+ "(expecting two space separated integers, eg <size>256 256</size>"))
    else inr (set_size t (nth_int sizes 0) (nth_int sizes 1))
  else if zero (xmlStrcmp (node_name n) "extent") then
    let '(rc, values) := geocache_util_extract_double_list value " " in
    let nvalues := Z.of_nat (length values) in
    if negb (is_success rc) || negb (nvalues =? 4) then
      (* the entries of [values] that the helper did not write print as zero *)
      inl (set_error ctx GEOCACHE_PARSE_ERROR
             ("failed to parse extent array " +:+ value +:+ "."
              +:+ "(expecting 4 space separated numbers, got " +:+ printf_d nvalues
              +:+ " (" +:+ printf_f (nth_double values 0)
              +:+ " " +:+ printf_f (nth_double values 1)
              +:+ " " +:+ printf_f (nth_double values 2)
              +:+ " " +:+ printf_f (nth_double values 3) +:+ ")"
              +:+ "eg <extent>-180 -90 180 90</extent>"))
    else inr (set_extent t (nth_double values 0, nth_double values 1,
                          nth_double values 2, nth_double values 3))
  else if zero (xmlStrcmp (node_name n) "resolutions") then
    let '(rc, values) := geocache_util_extract_double_list value " " in
    let nvalues := Z.of_nat (length values) in
    if negb (is_success rc) || (nvalues =? 0) then
      inl (set_error ctx GEOCACHE_PARSE_ERROR
             ("failed to parse resolutions array " +:+ value +:+ "."
              +:+ "(expecting space separated numbers, "
              +:+ "eg <resolutions>1 2 4 8 16 32</resolutions>"))
    else inr (set_resolutions t values nvalues)
  else if zero (xmlStrcmp (node_name n) "metatile") then
    let '(rc, values) := geocache_util_extract_int_list value " " in
    let nvalues := Z.of_nat (length values) in
    if negb (is_success rc) || negb (nvalues =? 2) then
      inl (set_error ctx GEOCACHE_PARSE_ERROR
             ("failed to parse metatile dimension " +:+ value +:+ "."
              +:+ "(expecting 2 space separated integers, "
              +:+ "eg <metatile>5 5</metatile>"))
    else inr (set_metasize t (nth_int values 0) (nth_int values 1))
  else if zero (xmlStrcmp (node_name n) "expires") then
    let '(l, endptr) := strtol value in
    let t := set_expires t (int_of_long l) in
    if negb (at_end endptr) then
      inl (set_error ctx GEOCACHE_PARSE_ERROR
             ("failed to parse expires " +:+ value +:+ "."
              +:+ "(expecting an  integer, " +:+ "eg <expires>3600</expires>"))
    else inr t
  else if zero (xmlStrcmp (node_name n) "metabuffer") then
    let '(l, endptr) := strtol value in
    let t := set_metabuffer t (int_of_long l) in
    if negb (at_end endptr) then
      inl (set_error ctx GEOCACHE_PARSE_ERROR
             ("failed to parse metabuffer " +:+ value +:+ "."
              +:+ "(expecting an  integer, " +:+ "eg <metabuffer>1</metabuffer>"))
    else inr t
  else if zero (xmlStrcmp (node_name n) "format") then
    match geocache_configuration_get_image_format config value with
    | None =>
        inl (set_error ctx GEOCACHE_PARSE_ERROR
               ("tileset " +:+ quoted name +:+ " references format " +:+ quoted value
                +:+ "," +:+ " but it is not configured"))
    | Some format => inr (set_format t (Some format))
    end
  else inr t.

(** The loop itself: [inr] is the tileset at its end. *)
Fixpoint tileset_children (ctx : geocache_context) (name : string) (config : cfg)
    (cur_node : list xmlNode) (t : tileset) : geocache_context + tileset :=
  match cur_node with
  | n :: next =>
      match tileset_child ctx name config n t with
      | inl ctx' => inl ctx'
      | inr t => tileset_children ctx name config next t
      end
  | [] => inr t
  end.

Definition is_null {A : Type} (p : option A) : bool :=
  match p with None => true | Some _ => false end.

Definition tileset_label (t : tileset) : string := default "(null)" (tileset_name t).

(** The checks after the loop ("check we have all we want"), the backfill
    of the format and the registration. *)
Definition tileset_finish (ctx : geocache_context) (name : string) (config : cfg)
    (t : tileset) : geocache_context * cfg :=
  if is_null (tileset_cache t) then
    (* TODO: we should allow tilesets with no caches *)
    (set_error ctx GEOCACHE_PARSE_ERROR
       ("tileset " +:+ quoted (tileset_label t) +:+ " has no cache configured."
        +:+ " You must add a <cache> tag."), config)
  else if is_null (tileset_source t) then
    (set_error ctx GEOCACHE_PARSE_ERROR
       ("tileset " +:+ quoted (tileset_label t) +:+ " has no source configured."
        +:+ " You must add a <source> tag."), config)
  else if is_null (tileset_srs t) then
    (set_error ctx GEOCACHE_PARSE_ERROR
       ("tileset " +:+ quoted (tileset_label t) +:+ " has no srs configured."
        +:+ " You must add a <srs> tag."), config)
  else if double_eq (extent0 t) (extent2 t) || double_eq (extent1 t) (extent3 t) then
    (set_error ctx GEOCACHE_PARSE_ERROR
       ("tileset " +:+ quoted (tileset_label t) +:+ " has no (or invalid) extent configured"
        +:+ " You must add/correct a <extent> tag."), config)
  else if levels t =? 0 then
    (set_error ctx GEOCACHE_PARSE_ERROR
       ("tileset " +:+ quoted (tileset_label t) +:+ " has no resolutions configured."
        +:+ " You must add a <resolutions> tag."), config)
  else
    let t :=
      if is_null (tileset_format t)
         && (negb (metasize_x t =? 1) || negb (metasize_y t =? 1) || negb (metabuffer t =? 0))
      then set_format t (merge_format config)
      else t in
    (ctx, geocache_configuration_add_tileset config t name).

Definition parseTileset (ctx : geocache_context) (node : xmlNode) (config : cfg)
    : geocache_context * cfg :=
  if negb (zero (xmlStrcmp (node_name node) "tileset")) then
    (set_error ctx GEOCACHE_PARSE_ERROR
       ("SEVERE: <" +:+ node_name node +:+ "> is not a tileset tag"), config)
  else
  let '(_, name, type) := extractNameAndTypeAttributes (properties node) in
  match nonempty name with
  | None =>
      (set_error ctx GEOCACHE_PARSE_ERROR
         ("mandatory attribute " +:+ quoted "name" +:+ " not found in <tileset>"), config)
  | Some name =>
      (* check we don't already have a cache defined with this name *)
      match geocache_configuration_get_tileset config name with
      | Some _ =>
          (set_error ctx GEOCACHE_PARSE_ERROR
             ("duplicate tileset with name " +:+ quoted name), config)
      | None =>
          let t := set_name (geocache_tileset_create ctx) (Some name) in
          match tileset_children ctx name config (children node) t with
          | inl ctx' => (ctx', config)
          | inr t => tileset_finish ctx name config t
          end
      end
  end.

(** *** geocache_configuration_parse *)

Definition service_enabled (config : cfg) (i : nat) : bool :=
  match services config !! i with
  | Some (Some _) => true
  | _ => false
  end.

(** The text of a node is never the null pointer here, so that of
    [!value || !*value || xmlStrcmp(value, "false")] the first test is
    always false. *)
Definition enables (value : string) : bool :=
  zero (strlen value) || negb (zero (xmlStrcmp value "false")).

(** The loop over the children of the [services] block. *)
Fixpoint services_children (ctx : geocache_context) (service_node : list xmlNode)
    (config : cfg) : cfg :=
  match service_node with
  | n :: next =>
      if negb (is_element n) then services_children ctx next config
      else if zero (xmlStrcmp (node_name n) "wms") then
        let value := xmlNodeGetContent n in
        let config :=
          if enables value
          then with_services config
                 (<[GEOCACHE_SERVICE_WMS := geocache_service_wms_create ctx]> (services config))
          else config in
        services_children ctx next config
      else if zero (xmlStrcmp (node_name n) "tms") then
        let value := xmlNodeGetContent n in
        let config :=
          if enables value
          then with_services config
                 (<[GEOCACHE_SERVICE_TMS := geocache_service_tms_create ctx]> (services config))
          else config in
        services_children ctx next config
      else services_children ctx next config
  | [] => config
  end.

(** What the body of the top-level loop does with one child.  [inl] is a
    [return] (after a report, or through GC_CHECK_ERROR), [inr] goes on to
    the next child. *)
Definition dispatch (ctx : geocache_context) (filename : string) (cur_node : xmlNode)
    (config : cfg) : geocache_context * cfg + geocache_context * cfg :=
  let check (r : geocache_context * cfg) :=
    if GC_HAS_ERROR r.1 then inl r else inr r in
  if negb (is_element cur_node) then inr (ctx, config)
  else if zero (xmlStrcmp (node_name cur_node) "source") then
    check (parseSource ctx cur_node config)
  else if zero (xmlStrcmp (node_name cur_node) "cache") then
    check (parseCache ctx cur_node config)
  else if zero (xmlStrcmp (node_name cur_node) "format") then
    check (parseFormat ctx cur_node config)
  else if zero (xmlStrcmp (node_name cur_node) "tileset") then
    check (parseTileset ctx cur_node config)
  else if zero (xmlStrcmp (node_name cur_node) "services") then
    inr (ctx, services_children ctx (children cur_node) config)
  else if zero (xmlStrcmp (node_name cur_node) "merge_format") then
    let value := xmlNodeGetContent cur_node in
    match geocache_configuration_get_image_format config value with
    | None =>
        inl (set_error ctx GEOCACHE_PARSE_ERROR
               ("merge_format tag references format " +:+ value
                +:+ " but it is not configured"), config)
    | Some format => inr (ctx, with_merge_format config (Some format))
    end
  else if zero (xmlStrcmp (node_name cur_node) "lock_dir") then
    inr (ctx, with_lockdir config (xmlNodeGetContent cur_node))
  else
    inl (set_error ctx GEOCACHE_PARSE_ERROR
           ("failed to parse geocache config file " +:+ filename
            +:+ ": unknown tag <" +:+ node_name cur_node +:+ ">"), config).

(** The loop over the children of the root. *)
Fixpoint walk (ctx : geocache_context) (filename : string) (cur_node : list xmlNode)
    (config : cfg) : geocache_context * cfg + geocache_context * cfg :=
  match cur_node with
  | n :: next =>
      match dispatch ctx filename n config with
      | inl r => inl r
      | inr (ctx, config) => walk ctx filename next config
      end
  | [] => inr (ctx, config)
  end.

(** The two checks after the walk: the lock directory, then the services. *)
Definition postconditions (ctx : geocache_context) (config : cfg)
    : geocache_context * cfg :=
  (* check our lock directory is valid and writable *)
  if negb (apr_dir_make_recursive (lockdir config)) then
    (set_error ctx GEOCACHE_DISK_ERROR
       ("failed to create lock directory " +:+ lockdir config), config)
  else
  let testlockfilename := lockdir config +:+ "/test.lock" in
  if negb (apr_file_open testlockfilename) then
    (set_error ctx GEOCACHE_DISK_ERROR
       ("failed to create test lockfile " +:+ testlockfilename), config)
  else
  if negb (service_enabled config GEOCACHE_SERVICE_WMS)
     && negb (service_enabled config GEOCACHE_SERVICE_TMS) then
    (set_error ctx GEOCACHE_PARSE_ERROR
       ("no services configured."
        +:+ " You must add a <services> tag with <wms/> or <tms/> children"), config)
  else (ctx, config).

Definition geocache_configuration_parse (ctx : geocache_context) (filename : string)
    (config : cfg) : geocache_context * cfg :=
  match xmlReadFile filename with
  | None =>
      (set_error ctx GEOCACHE_PARSE_ERROR
         ("libxml2 failed to parse file " +:+ filename +:+ ". Is it valid XML?"), config)
  | Some root_element =>
      if is_element root_element && zero (xmlStrcmp (node_name root_element) "geocache")
      then
        match walk ctx filename (children root_element) config with
        | inl r => r
        | inr (ctx, config) => postconditions ctx config
        end
      else
        (set_error ctx GEOCACHE_PARSE_ERROR
           ("failed to parse geocache config file " +:+ filename +:+ ": "
            +:+ "document does not begin with <geocache> tag. found <"
            +:+ node_name root_element +:+ ">"), config)
  end.

End Parser.

(** ** Reading documents, to state the properties *)

(** [n] is an element with the tag [tag]. *)
Definition is_child (tag : string) (n : xmlNode) : bool :=
  is_element n && zero (xmlStrcmp (node_name n) tag).

(** The last element with the tag [tag] in a list of siblings. *)
Fixpoint last_child (tag : string) (l : list xmlNode) : option xmlNode :=
  match l with
  | n :: r =>
      match last_child tag r with
      | Some m => Some m
      | None => if is_child tag n then Some n else None
      end
  | [] => None
  end.

(** The node with another tag. *)
Definition relabel (node : xmlNode) (tag : string) : xmlNode :=
  XmlNode (node_type node) tag (properties node) (children node) (content node).

(** The [name] attribute as the parsers use it: present and not empty. *)
Definition name_attribute (node : xmlNode) : option string :=
  nonempty (extractNameAndTypeAttributes (properties node)).1.2.

(** The value of the last attribute called [key]. *)
Fixpoint last_value (key : string) (attrs : list xmlAttr) : option string :=
  match attrs with
  | a :: r =>
      match last_value key r with
      | Some v => Some v
      | None =>
          match attr_name a, attr_children a with
          | Some an, Some v => if zero (xmlStrcmp an key) then Some v else None
          | _, _ => None
          end
      end
  | [] => None
  end.

(** An attribute with a name and with value nodes. *)
Definition complete (a : xmlAttr) : Prop :=
  is_Some (attr_name a) /\ is_Some (attr_children a).

(** An attribute [key] with a value that is not empty occurs in the list. *)
Definition present_nonempty (key : string) (attrs : list xmlAttr) : Prop :=
  exists v, In (XmlAttr (Some key) (Some v)) attrs /\ v <> "".


(** The extent of [t] is empty along an axis. *)
Definition degenerate {double : Type} {DBL : c_double double}
    (t : geocache_tileset double) : bool :=
  double_eq (extent0 t) (extent2 t) || double_eq (extent1 t) (extent3 t).

(** The tileset has metatiles or a metabuffer. *)
Definition metatiled {double : Type} (t : geocache_tileset double) : Prop :=
  metasize_x t <> 1 \/ metasize_y t <> 1 \/ metabuffer t <> 0.

(** The context and the configuration that the body of the top-level loop
    leaves for the child [c], whether it returns or goes on. *)
Definition handled {double : Type} {DBL : c_double double} {SRC : source_driver}
    {CCH : cache_driver} (ctx : geocache_context) (filename : string) (c : xmlNode)
    (config : geocache_cfg double) : geocache_context * geocache_cfg double :=
  match dispatch ctx filename c config with
  | inl r => r
  | inr r => r
  end.

(** An entry of the [services] block that enables the service [tag]. *)
Definition enabling_entry (tag : string) (n : xmlNode) : bool :=
  is_child tag n && enables (xmlNodeGetContent n).

(** A list of tokens written with one space between two of them; a token
    is not empty and holds no space. *)
Fixpoint has_char (c : ascii) (s : string) : bool :=
  match s with
  | String c' r => Ascii.eqb c' c || has_char c r
  | EmptyString => false
  end.

Definition number_token (tok : string) : Prop :=
  tok <> "" /\ has_char " " tok = false.

Fixpoint spaced (toks : list string) : string :=
  match toks with
  | [] => ""
  | [tok] => tok
  | tok :: r => tok +:+ " " +:+ spaced r
  end.

(** The text [s] lists the tokens [toks] between space characters: any
    number of spaces before the first token and after the last, one or more
    between two tokens, and nothing else. *)
Inductive space_separated : list string -> string -> Prop :=
| separated_end : space_separated [] ""
| separated_space (toks : list string) (s : string) :
    space_separated toks s -> space_separated toks (String " " s)
| separated_token (tok : string) (toks : list string) (s : string) :
    number_token tok -> space_separated toks s ->
    s = "" \/ (exists r, s = String " " r) ->
    space_separated (tok :: toks) (tok +:+ s).

(** Whether a PNG format accepts the text of a [colors] child, and a JPEG
    format the text of a [quality] child. *)
Definition colors_accepted (value : string) : bool :=
  match png_children (Ctx []) "f" [leaf "colors" value] (-1) GEOCACHE_COMPRESSION_DEFAULT with
  | inr _ => true
  | inl _ => false
  end.

Definition quality_accepted (value : string) : bool :=
  match jpeg_children (Ctx []) "f" [leaf "quality" value] 95 with
  | inr _ => true
  | inl _ => false
  end.

(** ** Notions for the properties of a whole compilation *)

(** What a loop with an early [return] leaves, whichever way it ends. *)
Definition finished {A : Type} (r : A + A) : A :=
  match r with
  | inl x => x
  | inr x => x
  end.

(** A format within the ranges that [parseFormat] checks. *)
Definition format_valid (f : geocache_image_format) : Prop :=
  match f with
  | PngFormat _ _ => True
  | PngQFormat _ _ ncolors => 2 <= ncolors <= 256
  | JpegFormat _ quality => 1 <= quality <= 100
  end.

(** Every format that the configuration holds or points at is valid. *)
Definition formats_valid {double : Type} (config : geocache_cfg double) : Prop :=
  (forall key f, image_formats config !! key = Some f -> format_valid f)
  /\ (forall f, merge_format config = Some f -> format_valid f)
  /\ (forall key t f,
        tilesets config !! key = Some t -> tileset_format t = Some f -> format_valid f).

(** Every tileset points at a cache and at a source of the registries. *)
Definition references_resolved {double : Type} (config : geocache_cfg double) : Prop :=
  forall key t,
    tilesets config !! key = Some t ->
    (exists k c, tileset_cache t = Some c /\ caches config !! k = Some c)
    /\ (exists k s, tileset_source t = Some s /\ sources config !! k = Some s).

(** The ten tags that the loop of [parseTileset] tests for. *)
Definition tileset_tags : list string :=
  ["cache"; "source"; "srs"; "size"; "extent"; "resolutions"; "metatile";
   "expires"; "metabuffer"; "format"].

(** [n] is an element with one of the ten tags. *)
Definition recognised (n : xmlNode) : bool :=
  is_element n && existsb (fun tag => zero (xmlStrcmp (node_name n) tag)) tileset_tags.

(** The effort that a [compression] child with an accepted text selects. *)
Definition compression_of (value : string) : geocache_compression_type :=
  if zero (xmlStrcmp value "fast") then GEOCACHE_COMPRESSION_FAST
  else GEOCACHE_COMPRESSION_BEST.

(** A [services] block under the root with an entry that enables [tag]. *)
Definition enabling_block (tag : string) (c : xmlNode) : bool :=
  is_child "services" c && existsb (enabling_entry tag) (children c).

(** The registries of sources, caches and tilesets of [c1] are kept in
    [c2]: each name of [c1] has in [c2] the entity it had. *)
Definition registrations_kept {double : Type} (c1 c2 : geocache_cfg double) : Prop :=
  sources c1 ⊆ sources c2 /\ caches c1 ⊆ caches c2 /\ tilesets c1 ⊆ tilesets c2.

(** The settings of [c2] are those of [c1]. *)
Definition same_settings {double : Type} (c1 c2 : geocache_cfg double) : Prop :=
  merge_format c2 = merge_format c1 /\ lockdir c2 = lockdir c1
  /\ services c2 = services c1.

(** The [type] attribute as the parsers use it: present and not empty. *)
Definition type_attribute (node : xmlNode) : option string :=
  nonempty (extractNameAndTypeAttributes (properties node)).2.

(** The number that [parseFormat] reads in the text of a child. *)
Definition int_content (n : xmlNode) : Z :=
  int_of_long (strtol (xmlNodeGetContent n)).1.

(** ** A concrete environment, to run the parsers on documents *)

Module Demo.

(** Numbers written as decimal integers stand for the doubles. *)
#[export] Instance whole_numbers : c_double Z := {
  double_eq := Z.eqb;
  double_zero := 0;
  strtod := strtol;
  printf_f := printf_d
}.

(** Variants whose two methods accept everything. *)
#[export] Instance wms_accepts : source_driver := {
  geocache_source_wms_create := fun _ => Some (Source None None);
  source_configuration_parse := fun ctx _ source => (ctx, source);
  source_configuration_check := fun ctx source => (ctx, source)
}.

#[export] Instance disk_accepts : cache_driver := {
  geocache_cache_disk_create := fun _ => Some (Cache None);
  cache_configuration_parse := fun ctx _ cache => (ctx, cache);
  cache_configuration_check := fun ctx cache => (ctx, cache)
}.

(** One readable file and a file system that grants or refuses the lock
    directory. *)
Definition one_file (root : xmlNode) (writable : bool) : platform := {|
  xmlReadFile := fun _ => Some root;
  apr_dir_make_recursive := fun _ => writable;
  apr_file_open := fun _ => writable
|}.

Definition ctx0 : geocache_context := Ctx [].
Definition cfg0 : geocache_cfg Z := geocache_configuration_create.

(** The document of the end-to-end example of the specification. *)
Definition example_tileset : xmlNode :=
  elem "tileset" [attr "name" "t1"]
    [leaf "cache" "diskcache"; leaf "source" "wms1"; leaf "srs" "EPSG:4326";
     leaf "size" "256 256"; leaf "extent" "-180 -90 180 90";
     leaf "resolutions" "1 2 4 8"].

Definition example_document : xmlNode :=
  elem "geocache" []
    [elem "format" [attr "name" "PNG"; attr "type" "PNG"] [];
     elem "cache" [attr "name" "diskcache"; attr "type" "disk"] [];
     elem "source" [attr "name" "wms1"; attr "type" "wms"] [leaf "srs" "EPSG:4326"];
     example_tileset;
     elem "services" [] [elem "wms" [] []]].

(** The configuration once the cache and the source of the example are
    registered. *)
Definition cfg_ready : geocache_cfg Z :=
  let c := (parseCache ctx0
              (elem "cache" [attr "name" "diskcache"; attr "type" "disk"] []) cfg0).2 in
  (parseSource ctx0
     (elem "source" [attr "name" "wms1"; attr "type" "wms"] [leaf "srs" "EPSG:4326"]) c).2.

(** The tileset of the example with metatiles of 2 by 2. *)
Definition metatiled_tileset : xmlNode :=
  elem "tileset" [attr "name" "t2"]
    [leaf "cache" "diskcache"; leaf "source" "wms1"; leaf "srs" "EPSG:4326";
     leaf "extent" "-180 -90 180 90"; leaf "resolutions" "1 2 4 8";
     leaf "metatile" "2 2"].

(** The tileset of the example with an extent of no width. *)
Definition flat_tileset : xmlNode :=
  elem "tileset" [attr "name" "t3"]
    [leaf "cache" "diskcache"; leaf "source" "wms1"; leaf "srs" "EPSG:4326";
     leaf "extent" "10 -90 10 90"; leaf "resolutions" "1 2 4 8"].


End Demo.

Import Demo.

(** * Properties *)

(** ** The C library *)

Lemma strcmp_zero (a b : string) : zero (strcmp a b) = true <-> a = b.
Proof.
  unfold zero, strcmp. destruct (String.compare a b) eqn:E.
  - split; [intros _; now apply String.compare_eq_iff | reflexivity].
  - split; [discriminate |]. intros ->.
    pose proof (String.compare_antisym b b) as H. rewrite E in H. discriminate.
  - split; [discriminate |]. intros ->.
    pose proof (String.compare_antisym b b) as H. rewrite E in H. discriminate.
Qed.

Lemma strcmp_refl (a : string) : zero (strcmp a a) = true.
Proof. now apply strcmp_zero. Qed.

Lemma strcmp_neq (a b : string) : a <> b -> zero (strcmp a b) = false.
Proof.
  intros H. destruct (zero (strcmp a b)) eqn:E; [| reflexivity].
  apply strcmp_zero in E. contradiction.
Qed.


Lemma xmlStrcmp_refl (a : string) : zero (xmlStrcmp a a) = true.
Proof. apply strcmp_refl. Qed.

Lemma xmlStrcmp_neq (a b : string) : a <> b -> zero (xmlStrcmp a b) = false.
Proof. apply strcmp_neq. Qed.

Lemma xmlStrcmp_zero (a b : string) : zero (xmlStrcmp a b) = true <-> a = b.
Proof. apply strcmp_zero. Qed.

Lemma has_error_set_error (ctx : geocache_context) (code : geocache_error_code)
    (msg : string) : GC_HAS_ERROR (set_error ctx code msg) = true.
Proof.
  unfold GC_HAS_ERROR, set_error. simpl.
  destruct (reports ctx); reflexivity.
Qed.

(** ** The attribute extractor *)

Lemma extract_loop_complete (attrs : list xmlAttr) :
  Forall complete attrs ->
  forall name type,
    extract_loop attrs name type =
    (match last_value "name" attrs with Some v => Some v | None => name end,
     match last_value "type" attrs with Some v => Some v | None => type end).
Proof.
  induction 1 as [| a r [[an Han] [v Hv]] _ IH]; intros name type; [reflexivity |].
  simpl. rewrite Han, Hv, IH.
  destruct (last_value "name" r), (last_value "type" r),
    (zero (xmlStrcmp an "name")), (zero (xmlStrcmp an "type")); reflexivity.
Qed.

Lemma last_value_In (key : string) (attrs : list xmlAttr) (v : string) :
  last_value key attrs = Some v -> In (XmlAttr (Some key) (Some v)) attrs.
Proof.
  induction attrs as [| a r IH]; simpl; [discriminate |].
  destruct (last_value key r) as [w |].
  - intros E. right. apply IH. exact E.
  - destruct a as [[an |] [w |]]; simpl; try discriminate.
    destruct (zero (xmlStrcmp an key)) eqn:E; [| discriminate].
    apply strcmp_zero in E. intros [= ->]. left. now subst.
Qed.

Lemma last_value_None (key : string) (attrs : list xmlAttr) (v : string) :
  last_value key attrs = None -> ~ In (XmlAttr (Some key) (Some v)) attrs.
Proof.
  induction attrs as [| a r IH]; simpl; [tauto |].
  destruct (last_value key r) as [w |]; [discriminate |].
  intros E [Ha | Hr]; [| now apply IH].
  subst a. simpl in E. rewrite xmlStrcmp_refl in E. discriminate.
Qed.

(** The loop stops at an attribute without value nodes: what follows it is
    not read. *)
Example extract_stops_early :
  extractNameAndTypeAttributes
    [XmlAttr (Some "id") None; attr "name" "a"; attr "type" "wms"]
  = (GEOCACHE_FAILURE, None, None).
Proof. reflexivity. Qed.

(** C7, as stated, fails: with an empty [name] the extractor still returns
    success, and hands the empty string back (the callers test for it); and
    behind an attribute without value nodes it finds neither [name] nor
    [type], though both are there and not empty. *)
Lemma C7_counterexample :
  ~ ((extractNameAndTypeAttributes [attr "name" ""; attr "type" "wms"]).1.1
       = GEOCACHE_SUCCESS
     <-> present_nonempty "name" [attr "name" ""; attr "type" "wms"]
         /\ present_nonempty "type" [attr "name" ""; attr "type" "wms"])
  /\ ~ ((extractNameAndTypeAttributes
           [XmlAttr (Some "id") None; attr "name" "a"; attr "type" "wms"]).1.1
         = GEOCACHE_SUCCESS
       <-> present_nonempty "name"
             [XmlAttr (Some "id") None; attr "name" "a"; attr "type" "wms"]
           /\ present_nonempty "type"
                [XmlAttr (Some "id") None; attr "name" "a"; attr "type" "wms"]).
Proof.
  split.
  - intros [H _]. destruct (H eq_refl) as [[v [Hin Hne]] _].
    simpl in Hin. destruct Hin as [E | [E | []]]; inversion E; subst; congruence.
  - intros [_ H]. assert (GEOCACHE_FAILURE = GEOCACHE_SUCCESS) as E; [| discriminate E].
    apply H. split.
    + exists "a". split; [simpl; tauto | discriminate].
    + exists "wms". split; [simpl; tauto | discriminate].
Qed.

(** C7, amended: on a list whose attributes all have a name and value
    nodes, the extractor hands back the value of the last [name] attribute
    and of the last [type] attribute, a null pointer for one that does not
    occur, and returns success exactly when both occur; it does not look at
    whether a value is empty. *)
Theorem C7_extractor_reports_presence (attrs : list xmlAttr) :
  Forall complete attrs ->
  let r := extractNameAndTypeAttributes attrs in
  r.1.2 = last_value "name" attrs /\ r.2 = last_value "type" attrs
  /\ (r.1.1 = GEOCACHE_SUCCESS <-> is_Some r.1.2 /\ is_Some r.2)
  /\ (forall v, r.1.2 = Some v -> In (attr "name" v) attrs)
  /\ (forall v, r.2 = Some v -> In (attr "type" v) attrs)
  /\ (r.1.2 = None -> forall v, ~ In (attr "name" v) attrs)
  /\ (r.2 = None -> forall v, ~ In (attr "type" v) attrs).
Proof.
  intros Hc r.
  assert (r.1.2 = last_value "name" attrs /\ r.2 = last_value "type" attrs) as [Hn Ht].
  { subst r. unfold extractNameAndTypeAttributes.
    rewrite (extract_loop_complete attrs Hc).
    destruct (last_value "name" attrs), (last_value "type" attrs); split; reflexivity. }
  split; [exact Hn |]. split; [exact Ht |]. split.
  { clear Hn Ht. subst r. unfold extractNameAndTypeAttributes.
    destruct (extract_loop attrs None None) as [[n |] [t |]]; simpl; split;
      try discriminate; try (intros [[x Hx] [y Hy]]; discriminate); eauto. }
  repeat split.
  - intros v E. apply last_value_In. congruence.
  - intros v E. apply last_value_In. congruence.
  - intros E v. apply last_value_None. congruence.
  - intros E v. apply last_value_None. congruence.
Qed.

Lemma C7_extractor_witness :
  let r := extractNameAndTypeAttributes [attr "type" "wms"; attr "name" "osm"] in
  r.1.2 = Some "osm" /\ r.2 = Some "wms" /\ r.1.1 = GEOCACHE_SUCCESS.
Proof.
  assert (Forall complete [attr "type" "wms"; attr "name" "osm"]) as Hc.
  { repeat constructor; simpl; eauto. }
  destruct (C7_extractor_reports_presence _ Hc) as (Hn & Ht & Hs & _).
  split; [exact Hn | split; [exact Ht | reflexivity]].
Defined.

(** ** The format parser *)

Ltac split_ifs :=
  repeat match goal with
         | |- context [if ?b then _ else _] => destruct b eqn:?
         | |- context [let '(_, _) := ?x in _] => destruct x eqn:?
         end.

Lemma png_children_inl (ctx : geocache_context) (name : string) (l : list xmlNode) :
  forall colors compression ctx',
    png_children ctx name l colors compression = inl ctx' ->
    exists msg, ctx' = set_error ctx GEOCACHE_PARSE_ERROR msg.
Proof.
  induction l as [| n next IH]; intros colors compression ctx'; simpl; [discriminate |].
  split_ifs; try (intros [= <-]; eauto); eauto.
Qed.

Lemma jpeg_children_inl (ctx : geocache_context) (name : string) (l : list xmlNode) :
  forall quality ctx',
    jpeg_children ctx name l quality = inl ctx' ->
    exists msg, ctx' = set_error ctx GEOCACHE_PARSE_ERROR msg.
Proof.
  induction l as [| n next IH]; intros quality ctx'; simpl; [discriminate |].
  split_ifs; try (intros [= <-]; eauto); eauto.
Qed.

(** In a PNG format, a child element with another tag than [compression]
    and [colors] makes the loop return with a report. *)
Lemma png_children_unknown_tag (ctx : geocache_context) (name : string)
    (l : list xmlNode) (n : xmlNode) :
  In n l -> is_element n = true ->
  node_name n <> "compression" -> node_name n <> "colors" ->
  forall colors compression,
  exists msg, png_children ctx name l colors compression
              = inl (set_error ctx GEOCACHE_PARSE_ERROR msg).
Proof.
  intros Hin He Hc1 Hc2.
  induction l as [| m next IH]; [destruct Hin |]. intros colors compression.
  destruct Hin as [-> | Hin].
  - simpl. rewrite He, (xmlStrcmp_neq _ _ Hc1), (xmlStrcmp_neq _ _ Hc2). simpl. eauto.
  - specialize (IH Hin). simpl. split_ifs; eauto.
Qed.

Section Format.

Context {double : Type}.
Local Abbreviation cfg := (geocache_cfg double).

(** A [format] node either is refused with one report, whatever the
    configuration holds, or its format is stored under its name, whatever
    the configuration holds. *)
Lemma parseFormat_cases (ctx : geocache_context) (node : xmlNode) :
  node_name node = "format" ->
  (exists msg, forall config : cfg,
      parseFormat ctx node config = (set_error ctx GEOCACHE_PARSE_ERROR msg, config))
  \/ (exists name format, name_attribute node = Some name /\
      forall config : cfg,
        parseFormat ctx node config
        = (ctx, geocache_configuration_add_image_format config (Some format) name)).
Proof.
  intros Htag. unfold name_attribute, parseFormat. rewrite Htag.
  rewrite xmlStrcmp_refl. cbv beta iota zeta delta [negb].
  destruct (extractNameAndTypeAttributes (properties node)) as [[rc name] type].
  cbv beta iota zeta delta [fst snd]. 
  destruct (nonempty name) as [nm |]; [| left; eauto].
  destruct (nonempty type) as [ty |]; [| left; eauto].
  destruct (zero (strcmp ty "PNG")).
  - destruct (png_children ctx nm (children node) (-1) GEOCACHE_COMPRESSION_DEFAULT)
      as [ctx' | [colors compression]] eqn:El.
    + apply png_children_inl in El as [msg ->]. left; eauto.
    + right. destruct (colors =? -1); simpl;
        eexists _, _; (split; [reflexivity | intros config; reflexivity]).
  - destruct (zero (strcmp ty "JPEG")); [| left; eauto].
    destruct (jpeg_children ctx nm (children node) 95) as [ctx' | quality] eqn:El.
    + apply jpeg_children_inl in El as [msg ->]. left; eauto.
    + right. simpl. eexists _, _; (split; [reflexivity | intros config; reflexivity]).
Qed.

End Format.

Lemma append_empty_r (s : string) : s +:+ "" = s.
Proof.
  induction s as [| c s IH]; [reflexivity |].
  change (String c (s +:+ "") = String c s). now rewrite IH.
Qed.

Lemma content_leaf (tag value : string) : xmlNodeGetContent (leaf tag value) = value.
Proof. change (value +:+ "" = value). apply append_empty_r. Qed.

Lemma int_of_long_small (x : Z) :
  - 2 ^ 31 <= x < 2 ^ 31 -> int_of_long x = x.
Proof.
  intros H. unfold int_of_long, INT_BITS.
  rewrite Z.mod_small; lia.
Qed.

(** Where the number read fits an [int], the two parsers accept exactly
    the texts read to their end with a number in the range. *)
Lemma colors_accepted_in_range (value : string) (l : Z) (endptr : string) :
  strtol value = (l, endptr) -> - 2 ^ 31 <= l < 2 ^ 31 ->
  colors_accepted value = true <-> endptr = "" /\ 2 <= l <= 256.
Proof.
  intros Hs Hr. unfold colors_accepted. simpl.
  rewrite content_leaf, Hs, (int_of_long_small l Hr).
  destruct endptr; simpl.
  - rewrite Z.gtb_ltb.
    destruct (Z.ltb_spec l 2), (Z.ltb_spec 256 l); simpl; split;
      try discriminate; try reflexivity; try lia; intros _; split; [reflexivity | lia].
  - split; [discriminate | intros [[=] _]].
Qed.

Lemma quality_accepted_in_range (value : string) (l : Z) (endptr : string) :
  strtol value = (l, endptr) -> - 2 ^ 31 <= l < 2 ^ 31 ->
  quality_accepted value = true <-> endptr = "" /\ 1 <= l <= 100.
Proof.
  intros Hs Hr. unfold quality_accepted. simpl.
  rewrite content_leaf, Hs, (int_of_long_small l Hr).
  destruct endptr; simpl.
  - rewrite Z.gtb_ltb.
    destruct (Z.ltb_spec l 1), (Z.ltb_spec 100 l); simpl; split;
      try discriminate; try reflexivity; try lia; intros _; split; [reflexivity | lia].
  - split; [discriminate | intros [[=] _]].
Qed.

(** The bounds of the two ranges. *)
Example colors_bounds :
  colors_accepted "2" = true /\ colors_accepted "256" = true
  /\ colors_accepted "1" = false /\ colors_accepted "257" = false
  /\ colors_accepted "16 colors" = false /\ colors_accepted "many" = false
  /\ colors_accepted "" = false.
Proof. vm_compute. tauto. Qed.

Example quality_bounds :
  quality_accepted "1" = true /\ quality_accepted "100" = true
  /\ quality_accepted "0" = false /\ quality_accepted "101" = false
  /\ quality_accepted "90%" = false /\ quality_accepted "" = false.
Proof. vm_compute. tauto. Qed.

(** C6, where the code departs from it: [strtol] returns a [long] and the
    conversion to [int] keeps its low 32 bits, so that 2^32 + 2 is taken
    as 2 colors and 2^32 + 1 as quality 1. *)
Theorem C6_range_check_after_truncation :
  strtol "4294967298" = (4294967298, "")
  /\ colors_accepted "4294967298" = true
  /\ (let r := parseFormat ctx0
                 (elem "format" [attr "name" "q"; attr "type" "PNG"]
                    [leaf "colors" "4294967298"]) cfg0 in
      reports r.1 = []
      /\ image_formats r.2 !! "q" = Some (PngQFormat "q" GEOCACHE_COMPRESSION_DEFAULT 2))
  /\ quality_accepted "4294967297" = true
  /\ (let r := parseFormat ctx0
                 (elem "format" [attr "name" "j"; attr "type" "JPEG"]
                    [leaf "quality" "4294967297"]) cfg0 in
      reports r.1 = [] /\ image_formats r.2 !! "j" = Some (JpegFormat "j" 1)).
Proof. vm_compute. tauto. Qed.

(** C2, where the code departs from it: the loop over the children of a
    JPEG format has no branch for the other tags; the child [foo] is passed
    over and the format is registered without a report. *)
Theorem C2_jpeg_passes_over_unknown_tag :
  let r := parseFormat ctx0
             (elem "format" [attr "name" "j"; attr "type" "JPEG"] [elem "foo" [] []])
             cfg0 in
  reports r.1 = [] /\ image_formats r.2 !! "j" = Some (JpegFormat "j" 95).
Proof. vm_compute. tauto. Qed.

Section FormatTags.

Context {double : Type}.
Local Abbreviation cfg := (geocache_cfg double).

(** The part of C2 that holds: a PNG format with a child element of
    another tag than [compression] and [colors] is refused and not
    registered. *)
Lemma png_unknown_tag_refused (ctx : geocache_context) (node n : xmlNode) (config : cfg)
    (name : string) :
  node_name node = "format" ->
  name_attribute node = Some name ->
  nonempty (extractNameAndTypeAttributes (properties node)).2 = Some "PNG" ->
  In n (children node) -> is_element n = true ->
  node_name n <> "compression" -> node_name n <> "colors" ->
  exists msg, parseFormat ctx node config = (set_error ctx GEOCACHE_PARSE_ERROR msg, config).
Proof.
  intros Htag Hname Htype Hin He H1 H2.
  unfold name_attribute in Hname. unfold parseFormat.
  rewrite Htag, xmlStrcmp_refl. cbv beta iota zeta delta [negb].
  destruct (extractNameAndTypeAttributes (properties node)) as [[rc nm] ty].
  simpl in Hname, Htype. rewrite Hname, Htype.
  change (zero (strcmp "PNG" "PNG")) with true. cbv iota.
  destruct (png_children_unknown_tag ctx name _ n Hin He H1 H2 (-1)
              GEOCACHE_COMPRESSION_DEFAULT) as [msg ->].
  eauto.
Qed.

(** And the report names the tag and the format when the children before
    the unknown one are accepted. *)
Lemma png_children_app (ctx : geocache_context) (name : string) (l1 l2 : list xmlNode) :
  forall colors compression,
    png_children ctx name (l1 ++ l2) colors compression =
    match png_children ctx name l1 colors compression with
    | inl e => inl e
    | inr (c, k) => png_children ctx name l2 c k
    end.
Proof.
  induction l1 as [| n next IH]; intros colors compression; simpl; [reflexivity |].
  split_ifs; try reflexivity; apply IH.
Qed.

Lemma png_unknown_tag_named (ctx : geocache_context) (name : string)
    (pre post : list xmlNode) (n : xmlNode) (c : Z) (k : geocache_compression_type) :
  is_element n = true -> node_name n <> "compression" -> node_name n <> "colors" ->
  png_children ctx name pre (-1) GEOCACHE_COMPRESSION_DEFAULT = inr (c, k) ->
  png_children ctx name (pre ++ n :: post) (-1) GEOCACHE_COMPRESSION_DEFAULT
  = inl (set_error ctx GEOCACHE_PARSE_ERROR
           ("unknown tag " +:+ node_name n +:+ " for format " +:+ quoted name)).
Proof.
  intros He H1 H2 Hpre. rewrite png_children_app, Hpre. simpl.
  rewrite He, (xmlStrcmp_neq _ _ H1), (xmlStrcmp_neq _ _ H2). reflexivity.
Qed.

End FormatTags.

(** ** The tileset parser *)

Ltac split_matches :=
  repeat match goal with
         | |- context [match ?x with _ => _ end] => destruct x eqn:?
         end.

(** Settles the comparisons of two known tags. *)
Ltac decide_tags :=
  repeat match goal with
         | |- context [zero (xmlStrcmp ?a ?a)] => rewrite (xmlStrcmp_refl a)
         | |- context [zero (xmlStrcmp ?a ?b)] =>
             rewrite (xmlStrcmp_neq a b) by discriminate
         end.

Lemma last_child_None (tag : string) (l : list xmlNode) :
  last_child tag l = None <-> Forall (fun n => is_child tag n = false) l.
Proof.
  induction l as [| n r IH]; simpl.
  - split; [constructor | reflexivity].
  - destruct (last_child tag r) as [m |].
    + split; [discriminate |]. intros H. inversion H; subst.
      destruct IH as [_ IH]. now apply IH.
    + destruct (is_child tag n) eqn:E.
      * split; [discriminate |]. intros H. inversion H; congruence.
      * split; [| reflexivity]. intros _. constructor; [exact E | now apply IH].
Qed.

Section TilesetLoop.

Context {double : Type} {DBL : c_double double}.
Local Abbreviation cfg := (geocache_cfg double).
Local Abbreviation tileset := (geocache_tileset double).

Variables (ctx : geocache_context) (name : string) (config : cfg).

Lemma tileset_child_inl (n : xmlNode) (t : tileset) (ctx' : geocache_context) :
  tileset_child ctx name config n t = inl ctx' ->
  exists msg, ctx' = set_error ctx GEOCACHE_PARSE_ERROR msg.
Proof.
  unfold tileset_child. split_matches; intros [= <-]; eauto.
Qed.

Lemma tileset_children_inl (l : list xmlNode) :
  forall (t : tileset) ctx',
    tileset_children ctx name config l t = inl ctx' ->
    exists msg, ctx' = set_error ctx GEOCACHE_PARSE_ERROR msg.
Proof.
  induction l as [| n next IH]; intros t ctx'; simpl; [discriminate |].
  destruct (tileset_child ctx name config n t) as [c | t1] eqn:E.
  - intros [= <-]. now apply tileset_child_inl in E.
  - apply IH.
Qed.

(** A child that is not a [format] element leaves the format alone. *)
Lemma tileset_child_format (n : xmlNode) (t t' : tileset) :
  tileset_child ctx name config n t = inr t' ->
  is_child "format" n = false ->
  tileset_format t' = tileset_format t.
Proof.
  unfold tileset_child, is_child.
  destruct (is_element n); simpl; [| intros [= <-]; reflexivity].
  intros H E. rewrite E in H. revert H.
  split_matches; intros [= <-]; reflexivity.
Qed.

Lemma tileset_children_format (l : list xmlNode) :
  forall t t' : tileset,
    tileset_children ctx name config l t = inr t' ->
    last_child "format" l = None ->
    tileset_format t' = tileset_format t.
Proof.
  induction l as [| n next IH]; intros t t'; simpl; [now intros [= <-] |].
  destruct (tileset_child ctx name config n t) as [c | t1] eqn:E; [discriminate |].
  intros H Hl. destruct (last_child "format" next) eqn:En; [discriminate |].
  destruct (is_child "format" n) eqn:Ec; [discriminate |].
  rewrite (IH _ _ H eq_refl). now apply (tileset_child_format n).
Qed.



End TilesetLoop.

Section TilesetChecks.

Context {double : Type} {DBL : c_double double}.
Local Abbreviation cfg := (geocache_cfg double).
Local Abbreviation tileset := (geocache_tileset double).

(** The checks after the loop either report one parse error and leave the
    configuration, or register the tileset, with its format backfilled. *)
Lemma tileset_finish_cases (ctx : geocache_context) (name : string) (config : cfg)
    (t : tileset) :
  (exists msg, tileset_finish ctx name config t
               = (set_error ctx GEOCACHE_PARSE_ERROR msg, config))
  \/ (degenerate t = false /\ levels t <> 0
      /\ exists t', tileset_finish ctx name config t
                    = (ctx, geocache_configuration_add_tileset config t' name)
           /\ t' = set_format t (tileset_format t')
           /\ (tileset_format t = None -> metatiled t ->
               tileset_format t' = merge_format config)
           /\ (tileset_format t = None -> ~ metatiled t -> tileset_format t' = None)).
Proof.
  unfold tileset_finish, degenerate.
  destruct (is_null (tileset_cache t)); [left; eauto |].
  destruct (is_null (tileset_source t)); [left; eauto |].
  destruct (is_null (tileset_srs t)); [left; eauto |].
  destruct (double_eq (extent0 t) (extent2 t) || double_eq (extent1 t) (extent3 t));
    [left; eauto |].
  destruct (levels t =? 0) eqn:El; [left; eauto |].
  apply Z.eqb_neq in El. right. split; [reflexivity |]. split; [exact El |].
  eexists. split; [reflexivity |]. unfold metatiled.
  destruct (tileset_format t) as [f |] eqn:Ef; simpl.
  - split; [destruct t; reflexivity |].
    split; intros; discriminate.
  - destruct (Z.eqb_spec (metasize_x t) 1), (Z.eqb_spec (metasize_y t) 1),
      (Z.eqb_spec (metabuffer t) 0); simpl;
      (split; [destruct t; reflexivity |]);
      (split; [intros _ H; try reflexivity; exfalso; tauto
              | intros _ H; try assumption; exfalso; apply H; tauto]).
Qed.

Lemma parseTileset_cases (ctx : geocache_context) (node : xmlNode) (config : cfg) :
  (exists msg, parseTileset ctx node config
               = (set_error ctx GEOCACHE_PARSE_ERROR msg, config))
  \/ (exists name t,
        node_name node = "tileset" /\ name_attribute node = Some name
        /\ tilesets config !! name = None
        /\ tileset_children ctx name config (children node)
             (set_name (geocache_tileset_create ctx) (Some name)) = inr t
        /\ parseTileset ctx node config = tileset_finish ctx name config t).
Proof.
  unfold parseTileset, name_attribute.
  destruct (zero (xmlStrcmp (node_name node) "tileset")) eqn:Et; simpl; [| left; eauto].
  apply xmlStrcmp_zero in Et.
  destruct (extractNameAndTypeAttributes (properties node)) as [[rc nm] ty]. simpl.
  destruct (nonempty nm) as [name |]; [| left; eauto].
  unfold geocache_configuration_get_tileset.
  destruct (tilesets config !! name) eqn:Ed; [left; eauto |].
  destruct (tileset_children ctx name config (children node)
              (set_name (geocache_tileset_create ctx) (Some name))) as [c | t] eqn:El.
  - apply tileset_children_inl in El as [msg ->]. left; eauto.
  - right. exists name, t. auto.
Qed.

(** The tileset that [parseTileset] leaves under a key that was free. *)
Lemma parseTileset_registered (ctx : geocache_context) (node : xmlNode) (config : cfg)
    (key : string) (ts : tileset) :
  tilesets config !! key = None ->
  tilesets (parseTileset ctx node config).2 !! key = Some ts ->
  exists t,
    name_attribute node = Some key
    /\ tileset_children ctx key config (children node)
         (set_name (geocache_tileset_create ctx) (Some key)) = inr t
    /\ degenerate t = false /\ levels t <> 0
    /\ parseTileset ctx node config
       = (ctx, geocache_configuration_add_tileset config ts key)
    /\ ts = set_format t (tileset_format ts)
    /\ (tileset_format t = None -> metatiled t -> tileset_format ts = merge_format config)
    /\ (tileset_format t = None -> ~ metatiled t -> tileset_format ts = None).
Proof.
  intros Hfree Hreg.
  destruct (parseTileset_cases ctx node config)
    as [[msg E] | (name & t & Htag & Hname & Hnone & Hloop & E)].
  { rewrite E in Hreg. simpl in Hreg. congruence. }
  destruct (tileset_finish_cases ctx name config t)
    as [[msg F] | (Hd & Hl & t' & F & Ht' & Hb1 & Hb2)].
  { rewrite E, F in Hreg. simpl in Hreg. congruence. }
  rewrite E, F in Hreg. simpl in Hreg.
  destruct (decide (name = key)) as [-> | Hne].
  - rewrite lookup_insert_eq in Hreg. injection Hreg as <-.
    exists t. rewrite E, F. auto 10.
  - rewrite lookup_insert_ne in Hreg by exact Hne. congruence.
Qed.

End TilesetChecks.

Lemma append_cons (c : ascii) (s t : string) : String c s +:+ t = String c (s +:+ t).
Proof. reflexivity. Qed.

Lemma append_assoc (a b c : string) : (a +:+ b) +:+ c = a +:+ (b +:+ c).
Proof.
  induction a as [| x a IH]; [reflexivity |].
  rewrite !append_cons. now rewrite IH.
Qed.

(** The tokenizer on a run of characters without the separator. *)
Lemma tokens_from_run (tok : string) :
  has_char " " tok = false ->
  forall cur rest,
    tokens_from " " cur (tok +:+ rest) = tokens_from " " (cur +:+ tok) rest.
Proof.
  induction tok as [| c tok IH]; intros Hc cur rest.
  - now rewrite append_empty_r.
  - simpl in Hc. apply orb_false_iff in Hc as [Hc1 Hc2].
    rewrite append_cons. simpl. rewrite Hc1, (IH Hc2), append_assoc. reflexivity.
Qed.

Lemma tokens_from_sep (d : ascii) (cur rest : string) :
  tokens_from d cur (String d rest)
  = match cur with
    | EmptyString => tokens_from d "" rest
    | _ => cur :: tokens_from d "" rest
    end.
Proof. simpl. now rewrite Ascii.eqb_refl. Qed.

(** The tokens of a spaced list are the list. *)
Lemma tokens_spaced (toks : list string) :
  Forall number_token toks -> tokens " " (spaced toks) = toks.
Proof.
  unfold tokens. induction 1 as [| tok r [Hne Hc] Hr IH]; [reflexivity |].
  destruct r as [| tok2 r].
  - simpl. rewrite <- (append_empty_r tok) at 1.
    rewrite (tokens_from_run tok Hc). simpl.
    change ("" +:+ tok) with tok. destruct tok; [congruence | reflexivity].
  - change (spaced (tok :: tok2 :: r)) with (tok +:+ " " +:+ spaced (tok2 :: r)).
    rewrite (tokens_from_run tok Hc). change ("" +:+ tok) with tok.
    rewrite append_cons, tokens_from_sep.
    change ("" +:+ spaced (tok2 :: r)) with (spaced (tok2 :: r)).
    rewrite IH. destruct tok; [congruence | reflexivity].
Qed.



(** A list with one space between two tokens is such a text. *)
Lemma spaced_space_separated (toks : list string) :
  Forall number_token toks -> space_separated toks (spaced toks).
Proof.
  induction 1 as [| tok r Htok Hr IH]; [constructor |].
  destruct r as [| tok2 r].
  - pose proof (separated_token tok [] "" Htok separated_end (or_introl eq_refl)) as H.
    now rewrite append_empty_r in H.
  - change (spaced (tok :: tok2 :: r)) with (tok +:+ String " " (spaced (tok2 :: r))).
    constructor; [exact Htok | now constructor | right; eauto].
Qed.

Section TilesetProperties.

Context {double : Type} {DBL : c_double double}.
Local Abbreviation cfg := (geocache_cfg double).
Local Abbreviation tileset := (geocache_tileset double).



(** C3: in a tileset that is registered and whose node has no [format]
    child, the format is the default merge format of the configuration when
    the metatile is not 1 by 1 or the metabuffer is not 0, and is unset
    otherwise. *)
Theorem C3_format_backfill (ctx : geocache_context) (node : xmlNode) (config : cfg)
    (key : string) (ts : tileset) :
  tilesets config !! key = None ->
  tilesets (parseTileset ctx node config).2 !! key = Some ts ->
  last_child "format" (children node) = None ->
  (metasize_x ts <> 1 \/ metasize_y ts <> 1 \/ metabuffer ts <> 0 ->
   tileset_format ts = merge_format config)
  /\ (metasize_x ts = 1 /\ metasize_y ts = 1 /\ metabuffer ts = 0 ->
      tileset_format ts = None).
Proof.
  intros Hfree Hreg Hnone.
  destruct (parseTileset_registered ctx node config key ts Hfree Hreg)
    as (t & _ & Hloop & _ & _ & _ & Hts & Hb1 & Hb2).
  pose proof (tileset_children_format ctx key config _ _ _ Hloop Hnone) as Hf.
  simpl in Hf.
  assert (metasize_x ts = metasize_x t) as Ex by (rewrite Hts; reflexivity).
  assert (metasize_y ts = metasize_y t) as Ey by (rewrite Hts; reflexivity).
  assert (metabuffer ts = metabuffer t) as Eb by (rewrite Hts; reflexivity).
  rewrite Ex, Ey, Eb. split.
  - intros H. apply Hb1; assumption.
  - intros (H1 & H2 & H3). apply Hb2; [assumption |]. unfold metatiled. tauto.
Qed.

(** A tileset with an empty extent fails the checks after the loop. *)
Lemma degenerate_fails_checks (ctx : geocache_context) (name : string) (config : cfg)
    (t : tileset) :
  degenerate t = true ->
  exists msg, tileset_finish ctx name config t
              = (set_error ctx GEOCACHE_PARSE_ERROR msg, config).
Proof.
  intros Hd. destruct (tileset_finish_cases ctx name config t) as [H | (H & _)];
    [exact H | congruence].
Qed.

(** C5: a tileset whose extent has [extent[0] == extent[2]] or
    [extent[1] == extent[3]] fails the checks with a parse error, whatever
    its other fields are; the node it was read from is refused and the
    configuration is left as it was; and no registered tileset has such an
    extent. *)
Theorem C5_degenerate_extent_refused (ctx : geocache_context) (name : string)
    (config : cfg) (t : tileset) :
  double_eq (extent0 t) (extent2 t) || double_eq (extent1 t) (extent3 t) = true ->
  (exists msg, tileset_finish ctx name config t
               = (set_error ctx GEOCACHE_PARSE_ERROR msg, config))
  /\ (forall node,
        name_attribute node = Some name ->
        tileset_children ctx name config (children node)
          (set_name (geocache_tileset_create ctx) (Some name)) = inr t ->
        exists msg, parseTileset ctx node config
                    = (set_error ctx GEOCACHE_PARSE_ERROR msg, config))
  /\ (forall ctx' node' (config' : cfg) key ts,
        tilesets config' !! key = None ->
        tilesets (parseTileset ctx' node' config').2 !! key = Some ts ->
        extent ts <> extent t).
Proof.
  intros Hd. split; [now apply degenerate_fails_checks |]. split.
  - intros node Hname Hloop.
    destruct (parseTileset_cases ctx node config)
      as [E | (name' & t' & _ & Hname' & _ & Hloop' & E)]; [exact E |].
    assert (name' = name) as -> by congruence.
    assert (t' = t) as -> by congruence.
    rewrite E. now apply degenerate_fails_checks.
  - intros ctx' node' config' key ts Hfree Hreg Hext.
    destruct (parseTileset_registered ctx' node' config' key ts Hfree Hreg)
      as (t1 & _ & _ & Hd1 & _ & _ & Hts & _).
    assert (extent ts = extent t1) as E1 by (rewrite Hts; reflexivity).
    unfold degenerate, extent0, extent1, extent2, extent3 in Hd1.
    unfold extent0, extent1, extent2, extent3 in Hd.
    rewrite <- E1, Hext in Hd1. congruence.
Qed.

End TilesetProperties.

(** The tileset [t2], with metatiles of 2 by 2 and no format of its own,
    gets the merge format; [t1], with the defaults, gets none. *)
Lemma C3_format_backfill_witness :
  (exists ts, tilesets (parseTileset ctx0 metatiled_tileset cfg_ready).2 !! "t2" = Some ts
              /\ tileset_format ts = Some (PngFormat "PNG" GEOCACHE_COMPRESSION_FAST))
  /\ (exists ts, tilesets (parseTileset ctx0 example_tileset cfg_ready).2 !! "t1" = Some ts
                 /\ tileset_format ts = None).
Proof.
  split.
  - destruct (tilesets (parseTileset ctx0 metatiled_tileset cfg_ready).2 !! "t2")
      as [ts |] eqn:E; [| vm_compute in E; discriminate].
    exists ts. split; [reflexivity |].
    destruct (C3_format_backfill ctx0 metatiled_tileset cfg_ready "t2" ts)
      as [H _]; [vm_compute; reflexivity | exact E | reflexivity |].
    rewrite H; [reflexivity |].
    vm_compute in E. injection E as <-. left. simpl. lia.
  - destruct (tilesets (parseTileset ctx0 example_tileset cfg_ready).2 !! "t1")
      as [ts |] eqn:E; [| vm_compute in E; discriminate].
    exists ts. split; [reflexivity |].
    destruct (C3_format_backfill ctx0 example_tileset cfg_ready "t1" ts)
      as [_ H]; [vm_compute; reflexivity | exact E | reflexivity |].
    apply H. vm_compute in E. injection E as <-. simpl. auto.
Defined.

(** The tileset [t3], with an extent from 10 to 10, is refused. *)
Lemma C5_degenerate_extent_witness :
  exists msg, parseTileset ctx0 flat_tileset cfg_ready
              = (set_error ctx0 GEOCACHE_PARSE_ERROR msg, cfg_ready).
Proof.
  destruct (tileset_children ctx0 "t3" cfg_ready (children flat_tileset)
              (set_name (geocache_tileset_create ctx0) (Some "t3"))) as [c | t] eqn:E;
    [vm_compute in E; discriminate |].
  destruct (C5_degenerate_extent_refused ctx0 "t3" cfg_ready t) as (_ & H & _).
  - vm_compute in E. injection E as <-. reflexivity.
  - apply H; [reflexivity | exact E].
Defined.

(** ** Duplicate names *)

Section Duplicates.

Context {double : Type} {DBL : c_double double}.
Context {SRC : source_driver} {CCH : cache_driver}.
Local Abbreviation cfg := (geocache_cfg double).

Ltac refute_error :=
  match goal with
  | H : GC_HAS_ERROR (set_error _ _ _) = false |- _ =>
      rewrite has_error_set_error in H; discriminate
  | H : GC_HAS_ERROR ?c = false, H' : GC_HAS_ERROR ?c = true |- _ => congruence
  end.

(** A source node parsed without error is registered under its name. *)
Lemma parseSource_registers (ctx : geocache_context) (node : xmlNode) (config : cfg) :
  GC_HAS_ERROR (parseSource ctx node config).1 = false ->
  exists name source,
    name_attribute node = Some name
    /\ (parseSource ctx node config).2
       = geocache_configuration_add_source config source name.
Proof.
  unfold parseSource, name_attribute.
  split_matches; cbn [fst snd]; intros H; try refute_error.
  eexists _, _. split; [eassumption | reflexivity].
Qed.

Lemma parseCache_registers (ctx : geocache_context) (node : xmlNode) (config : cfg) :
  GC_HAS_ERROR (parseCache ctx node config).1 = false ->
  exists name cache,
    name_attribute node = Some name
    /\ (parseCache ctx node config).2
       = geocache_configuration_add_cache config cache name.
Proof.
  unfold parseCache, name_attribute.
  split_matches; cbn [fst snd]; intros H; try refute_error.
  eexists _, _. split; [eassumption | reflexivity].
Qed.

Lemma parseTileset_registers (ctx : geocache_context) (node : xmlNode) (config : cfg) :
  GC_HAS_ERROR (parseTileset ctx node config).1 = false ->
  exists name t,
    name_attribute node = Some name
    /\ (parseTileset ctx node config).2
       = geocache_configuration_add_tileset config t name.
Proof.
  intros H.
  destruct (parseTileset_cases ctx node config)
    as [[msg E] | (name & t & _ & Hname & _ & _ & E)].
  { rewrite E in H. simpl in H. refute_error. }
  destruct (tileset_finish_cases ctx name config t)
    as [[msg F] | (_ & _ & t' & F & _)].
  { rewrite E, F in H. simpl in H. refute_error. }
  exists name, t'. rewrite E, F. auto.
Qed.

(** The check for a name that is taken comes before anything is built. *)
Lemma parseSource_duplicate (ctx : geocache_context) (node : xmlNode) (config : cfg)
    (name : string) :
  node_name node = "source" -> name_attribute node = Some name ->
  is_Some (sources config !! name) ->
  parseSource ctx node config
  = (set_error ctx GEOCACHE_PARSE_ERROR
       ("duplicate source with name " +:+ quoted name), config).
Proof.
  intros Htag Hname [x Hx]. unfold parseSource, name_attribute in *.
  rewrite Htag, xmlStrcmp_refl. simpl.
  destruct (extractNameAndTypeAttributes (properties node)) as [[rc nm] ty].
  simpl in Hname. rewrite Hname. unfold geocache_configuration_get_source.
  now rewrite Hx.
Qed.

Lemma parseCache_duplicate (ctx : geocache_context) (node : xmlNode) (config : cfg)
    (name : string) :
  node_name node = "cache" -> name_attribute node = Some name ->
  is_Some (caches config !! name) ->
  parseCache ctx node config
  = (set_error ctx GEOCACHE_PARSE_ERROR
       ("duplicate cache with name " +:+ quoted name), config).
Proof.
  intros Htag Hname [x Hx]. unfold parseCache, name_attribute in *.
  rewrite Htag, xmlStrcmp_refl. simpl.
  destruct (extractNameAndTypeAttributes (properties node)) as [[rc nm] ty].
  simpl in Hname. rewrite Hname. unfold geocache_configuration_get_cache.
  now rewrite Hx.
Qed.

Lemma parseTileset_duplicate (ctx : geocache_context) (node : xmlNode) (config : cfg)
    (name : string) :
  node_name node = "tileset" -> name_attribute node = Some name ->
  is_Some (tilesets config !! name) ->
  parseTileset ctx node config
  = (set_error ctx GEOCACHE_PARSE_ERROR
       ("duplicate tileset with name " +:+ quoted name), config).
Proof.
  intros Htag Hname [x Hx]. unfold parseTileset, name_attribute in *.
  rewrite Htag, xmlStrcmp_refl. simpl.
  destruct (extractNameAndTypeAttributes (properties node)) as [[rc nm] ty].
  simpl in Hname. rewrite Hname. unfold geocache_configuration_get_tileset.
  now rewrite Hx.
Qed.

(** C1, amended: after a source, a cache or a tileset was registered, a
    second node of the same category with the same name gets the duplicate
    report of its category and nothing else happens: nothing of the second
    node but its tag and its name is read.  A format node is never refused
    for its name: whatever the configuration holds, it is either refused for
    another reason or stored under its name, in the place of a format that
    had the name. *)
Theorem C1_second_registration (ctx : geocache_context) (node1 node2 : xmlNode)
    (config : cfg) (name : string) :
  name_attribute node1 = Some name -> name_attribute node2 = Some name ->
  (node_name node2 = "source" ->
   let r := parseSource ctx node1 config in
   GC_HAS_ERROR r.1 = false ->
   parseSource r.1 node2 r.2
   = (set_error r.1 GEOCACHE_PARSE_ERROR
        ("duplicate source with name " +:+ quoted name), r.2))
  /\ (node_name node2 = "cache" ->
      let r := parseCache ctx node1 config in
      GC_HAS_ERROR r.1 = false ->
      parseCache r.1 node2 r.2
      = (set_error r.1 GEOCACHE_PARSE_ERROR
           ("duplicate cache with name " +:+ quoted name), r.2))
  /\ (node_name node2 = "tileset" ->
      let r := parseTileset ctx node1 config in
      GC_HAS_ERROR r.1 = false ->
      parseTileset r.1 node2 r.2
      = (set_error r.1 GEOCACHE_PARSE_ERROR
           ("duplicate tileset with name " +:+ quoted name), r.2))
  /\ (node_name node2 = "format" ->
      forall ctx',
        (exists msg, forall config' : cfg,
            parseFormat ctx' node2 config'
            = (set_error ctx' GEOCACHE_PARSE_ERROR msg, config'))
        \/ (exists format, forall config' : cfg,
              parseFormat ctx' node2 config'
              = (ctx', geocache_configuration_add_image_format config' (Some format) name)
              /\ image_formats (parseFormat ctx' node2 config').2 !! name = Some format)).
Proof.
  intros Hn1 Hn2. repeat split.
  - intros Htag r Hok. apply parseSource_duplicate; [assumption .. |].
    destruct (parseSource_registers ctx node1 config Hok) as (nm & x & Hnm & E).
    subst r. rewrite E. assert (nm = name) as -> by congruence.
    simpl. rewrite lookup_insert_eq. eauto.
  - intros Htag r Hok. apply parseCache_duplicate; [assumption .. |].
    destruct (parseCache_registers ctx node1 config Hok) as (nm & x & Hnm & E).
    subst r. rewrite E. assert (nm = name) as -> by congruence.
    simpl. rewrite lookup_insert_eq. eauto.
  - intros Htag r Hok. apply parseTileset_duplicate; [assumption .. |].
    destruct (parseTileset_registers ctx node1 config Hok) as (nm & x & Hnm & E).
    subst r. rewrite E. assert (nm = name) as -> by congruence.
    simpl. rewrite lookup_insert_eq. eauto.
  - intros Htag ctx'.
    destruct (parseFormat_cases (double := double) ctx' node2 Htag)
      as [H | (nm & f & Hnm & H)]; [left; exact H |].
    right. exists f. intros config'. assert (nm = name) as -> by congruence.
    rewrite H. split; [reflexivity |]. simpl. apply lookup_insert_eq.
Qed.

End Duplicates.

(** C1, as stated, fails for image formats: the second format named [a]
    is registered without a report and takes the place of the first. *)
Lemma C1_counterexample :
  let f1 := elem "format" [attr "name" "a"; attr "type" "PNG"] [] in
  let f2 := elem "format" [attr "name" "a"; attr "type" "JPEG"] [] in
  let r1 := parseFormat ctx0 f1 cfg0 in
  let r2 := parseFormat r1.1 f2 r1.2 in
  image_formats r1.2 !! "a" = Some (PngFormat "a" GEOCACHE_COMPRESSION_DEFAULT)
  /\ GC_HAS_ERROR r2.1 = false
  /\ image_formats r2.2 !! "a" = Some (JpegFormat "a" 95).
Proof. vm_compute. tauto. Qed.

(** The source [wms1] twice, and the built-in format [PNG] defined anew. *)
Lemma C1_second_registration_witness :
  let src := elem "source" [attr "name" "wms1"; attr "type" "wms"] [] in
  let png := elem "format" [attr "name" "PNG"; attr "type" "JPEG"] [] in
  let r := parseSource ctx0 src cfg0 in
  parseSource r.1 src r.2
  = (set_error r.1 GEOCACHE_PARSE_ERROR
       ("duplicate source with name " +:+ quoted "wms1"), r.2)
  /\ image_formats (parseFormat ctx0 png cfg0).2 !! "PNG" = Some (JpegFormat "PNG" 95).
Proof.
  intros src png r. split.
  - destruct (C1_second_registration ctx0 src src cfg0 "wms1") as (H & _);
      [reflexivity | reflexivity |].
    apply H; reflexivity.
  - destruct (C1_second_registration ctx0 png png cfg0 "PNG") as (_ & _ & _ & H);
      [reflexivity | reflexivity |].
    destruct (H eq_refl ctx0) as [[msg E] | [f E]].
    + specialize (E cfg0). vm_compute in E. discriminate.
    + destruct (E cfg0) as [E1 E2]. rewrite E2. f_equal.
      vm_compute in E1. congruence.
Defined.

(** ** The orchestrator *)

Section Orchestrator.

Context {double : Type} {DBL : c_double double}.
Context {SRC : source_driver} {CCH : cache_driver} {SYS : platform}.
Local Abbreviation cfg := (geocache_cfg double).

Lemma enables_iff (value : string) : enables value = true <-> value <> "false".
Proof.
  unfold enables. destruct (zero (xmlStrcmp value "false")) eqn:E.
  - apply xmlStrcmp_zero in E. subst value. split; [discriminate | congruence].
  - rewrite orb_true_r. split; [| reflexivity].
    intros _ ->. rewrite xmlStrcmp_refl in E. discriminate.
Qed.

Lemma service_enabled_insert (config : cfg) (i j : nat) (s : geocache_service) :
  (i < length (services config))%nat ->
  service_enabled (with_services config (<[i := Some s]> (services config))) j
  = if decide (i = j) then true else service_enabled config j.
Proof.
  intros Hi. unfold service_enabled. simpl.
  destruct (decide (i = j)) as [<- | Hne].
  - now rewrite list_lookup_insert_eq.
  - now rewrite list_lookup_insert_ne.
Qed.

(** A service is enabled after the [services] block exactly when it was
    enabled before or one of its entries has another text than "false". *)
Lemma services_children_enabled (ctx : geocache_context) (l : list xmlNode) :
  forall config : cfg,
    length (services config) = GEOCACHE_SERVICES_COUNT ->
    service_enabled (services_children ctx l config) GEOCACHE_SERVICE_WMS
    = service_enabled config GEOCACHE_SERVICE_WMS || existsb (enabling_entry "wms") l
    /\ service_enabled (services_children ctx l config) GEOCACHE_SERVICE_TMS
       = service_enabled config GEOCACHE_SERVICE_TMS || existsb (enabling_entry "tms") l.
Proof.
  induction l as [| n next IH]; intros config Hlen; simpl.
  - now rewrite !orb_false_r.
  - unfold enabling_entry at 1 3, is_child.
    destruct (is_element n); simpl; [| now apply IH].
    destruct (zero (xmlStrcmp (node_name n) "wms")) eqn:Ew.
    + apply xmlStrcmp_zero in Ew. rewrite Ew. decide_tags. simpl.
      destruct (enables (xmlNodeGetContent n)); simpl; [| now apply IH].
      destruct (IH (with_services config
                      (<[GEOCACHE_SERVICE_WMS := geocache_service_wms_create ctx]>
                         (services config)))) as [H1 H2].
      { simpl. now rewrite length_insert. }
      rewrite H1, H2. unfold geocache_service_wms_create.
      rewrite !service_enabled_insert by (rewrite Hlen; unfold GEOCACHE_SERVICES_COUNT,
        GEOCACHE_SERVICE_WMS; lia).
      simpl. now rewrite orb_true_r.
    + destruct (zero (xmlStrcmp (node_name n) "tms")) eqn:Et; simpl; [| now apply IH].
      destruct (enables (xmlNodeGetContent n)); simpl; [| now apply IH].
      destruct (IH (with_services config
                      (<[GEOCACHE_SERVICE_TMS := geocache_service_tms_create ctx]>
                         (services config)))) as [H1 H2].
      { simpl. now rewrite length_insert. }
      rewrite H1, H2. unfold geocache_service_tms_create.
      rewrite !service_enabled_insert by (rewrite Hlen; unfold GEOCACHE_SERVICES_COUNT,
        GEOCACHE_SERVICE_TMS; lia).
      simpl. now rewrite orb_true_r.
Qed.

(** The walk over a list of children in two parts. *)
Lemma walk_app (filename : string) (l1 l2 : list xmlNode) :
  forall ctx (config : cfg),
    walk ctx filename (l1 ++ l2) config
    = match walk ctx filename l1 config with
      | inl r => inl r
      | inr (ctx', config') => walk ctx' filename l2 config'
      end.
Proof.
  induction l1 as [| n next IH]; intros ctx config; simpl; [reflexivity |].
  destruct (dispatch ctx filename n config) as [r | [c g]]; [reflexivity | apply IH].
Qed.

(** The loop goes on to the next child only without an error. *)
Lemma dispatch_inr_no_error (ctx ctx' : geocache_context) (filename : string)
    (c : xmlNode) (config config' : cfg) :
  dispatch ctx filename c config = inr (ctx', config') ->
  GC_HAS_ERROR ctx = false -> GC_HAS_ERROR ctx' = false.
Proof.
  unfold dispatch. cbv zeta beta.
  split_matches; intros E H; inversion E as [E']; clear E;
    try (subst; assumption);
    match goal with
    | Hb : GC_HAS_ERROR (?r).1 = false |- _ => rewrite E' in Hb; exact Hb
    end.
Qed.

Lemma walk_inr_no_error (filename : string) (l : list xmlNode) :
  forall ctx ctx' (config config' : cfg),
    walk ctx filename l config = inr (ctx', config') ->
    GC_HAS_ERROR ctx = false -> GC_HAS_ERROR ctx' = false.
Proof.
  induction l as [| n next IH]; intros ctx ctx' config config'; simpl.
  - now intros [= <- <-].
  - destruct (dispatch ctx filename n config) as [r | [c g]] eqn:E; [discriminate |].
    intros H H0. apply (IH _ _ _ _ H). now apply (dispatch_inr_no_error _ _ _ _ _ _ E).
Qed.

(** A child whose handling leaves an error makes the loop return. *)
Lemma dispatch_error_returns (ctx : geocache_context) (filename : string) (c : xmlNode)
    (config : cfg) :
  GC_HAS_ERROR ctx = false ->
  GC_HAS_ERROR (handled ctx filename c config).1 = true ->
  dispatch ctx filename c config = inl (handled ctx filename c config).
Proof.
  unfold handled. intros H0.
  destruct (dispatch ctx filename c config) as [r | [c' g']] eqn:E; [reflexivity |].
  simpl. intros H. rewrite (dispatch_inr_no_error _ _ _ _ _ _ E H0) in H. discriminate.
Qed.

Lemma enabling_entry_exists (tag : string) (l : list xmlNode) :
  existsb (enabling_entry tag) l = true
  <-> exists n, In n l /\ is_child tag n = true /\ xmlNodeGetContent n <> "false".
Proof.
  rewrite existsb_exists. unfold enabling_entry. split.
  - intros (n & Hin & H). apply andb_true_iff in H as [H1 H2].
    exists n. rewrite <- enables_iff. auto.
  - intros (n & Hin & H1 & H2). exists n. rewrite H1. simpl.
    split; [assumption | now apply enables_iff].
Qed.

(** C8, amended: after the [services] block a service is enabled exactly
    when it was enabled before the block or one of its entries has a text
    other than "false" (an entry with the text "false" changes nothing);
    and when the walk ends with no service enabled and the lock directory
    can be made and written, the compilation fails with the parse error
    "no services configured". *)
Theorem C8_services_enabled (ctx : geocache_context) (block : list xmlNode)
    (config : cfg) :
  length (services config) = GEOCACHE_SERVICES_COUNT ->
  (service_enabled (services_children ctx block config) GEOCACHE_SERVICE_WMS = true
   <-> service_enabled config GEOCACHE_SERVICE_WMS = true
       \/ exists n, In n block /\ is_child "wms" n = true
                    /\ xmlNodeGetContent n <> "false")
  /\ (service_enabled (services_children ctx block config) GEOCACHE_SERVICE_TMS = true
      <-> service_enabled config GEOCACHE_SERVICE_TMS = true
          \/ exists n, In n block /\ is_child "tms" n = true
                       /\ xmlNodeGetContent n <> "false")
  /\ (forall filename root ctx' config',
        xmlReadFile filename = Some root ->
        is_element root = true -> node_name root = "geocache" ->
        walk ctx filename (children root) config = inr (ctx', config') ->
        service_enabled config' GEOCACHE_SERVICE_WMS = false ->
        service_enabled config' GEOCACHE_SERVICE_TMS = false ->
        apr_dir_make_recursive (lockdir config') = true ->
        apr_file_open (lockdir config' +:+ "/test.lock") = true ->
        geocache_configuration_parse ctx filename config
        = (set_error ctx' GEOCACHE_PARSE_ERROR
             ("no services configured."
              +:+ " You must add a <services> tag with <wms/> or <tms/> children"),
           config')).
Proof.
  intros Hlen.
  destruct (services_children_enabled ctx block config Hlen) as [Hw Ht].
  split; [| split].
  - rewrite Hw, orb_true_iff, enabling_entry_exists. reflexivity.
  - rewrite Ht, orb_true_iff, enabling_entry_exists. reflexivity.
  - intros filename root ctx' config' Hread He Hroot Hwalk H1 H2 Hd Hf.
    unfold geocache_configuration_parse.
    rewrite Hread, He, Hroot, xmlStrcmp_refl, Hwalk. simpl.
    unfold postconditions. now rewrite Hd, Hf, H1, H2.
Qed.

(** C9: a child of the root whose handling leaves an error ends the
    compilation with what that handling left: the children after it are not
    visited and neither check is made.  When the walk ends, it ends without
    an error, and the compilation is the two checks in their order: a lock
    directory that cannot be made or written gives a disk error whatever the
    services are, and only then a configuration without a service gives the
    parse error.  An element under the root with an unknown tag is reported
    with the tag and the name of the file. *)
Theorem C9_fail_fast (ctx : geocache_context) (filename : string) (root : xmlNode)
    (config : cfg) :
  xmlReadFile filename = Some root ->
  is_element root = true -> node_name root = "geocache" ->
  GC_HAS_ERROR ctx = false ->
  (forall pre c post ctx1 config1,
      children root = pre ++ c :: post ->
      walk ctx filename pre config = inr (ctx1, config1) ->
      GC_HAS_ERROR (handled ctx1 filename c config1).1 = true ->
      geocache_configuration_parse ctx filename config = handled ctx1 filename c config1)
  /\ (forall ctx' config',
        walk ctx filename (children root) config = inr (ctx', config') ->
        GC_HAS_ERROR ctx' = false
        /\ geocache_configuration_parse ctx filename config = postconditions ctx' config'
        /\ (apr_dir_make_recursive (lockdir config') = false ->
            postconditions ctx' config'
            = (set_error ctx' GEOCACHE_DISK_ERROR
                 ("failed to create lock directory " +:+ lockdir config'), config'))
        /\ (apr_dir_make_recursive (lockdir config') = true ->
            apr_file_open (lockdir config' +:+ "/test.lock") = false ->
            postconditions ctx' config'
            = (set_error ctx' GEOCACHE_DISK_ERROR
                 ("failed to create test lockfile " +:+ lockdir config' +:+ "/test.lock"),
               config'))
        /\ (apr_dir_make_recursive (lockdir config') = true ->
            apr_file_open (lockdir config' +:+ "/test.lock") = true ->
            service_enabled config' GEOCACHE_SERVICE_WMS
            || service_enabled config' GEOCACHE_SERVICE_TMS = false ->
            postconditions ctx' config'
            = (set_error ctx' GEOCACHE_PARSE_ERROR
                 ("no services configured."
                  +:+ " You must add a <services> tag with <wms/> or <tms/> children"),
               config'))
        /\ (apr_dir_make_recursive (lockdir config') = true ->
            apr_file_open (lockdir config' +:+ "/test.lock") = true ->
            service_enabled config' GEOCACHE_SERVICE_WMS
            || service_enabled config' GEOCACHE_SERVICE_TMS = true ->
            postconditions ctx' config' = (ctx', config')))
  /\ (forall ctx1 (config1 : cfg) c,
        is_element c = true ->
        ~ In (node_name c)
            ["source"; "cache"; "format"; "tileset"; "services"; "merge_format"; "lock_dir"] ->
        dispatch ctx1 filename c config1
        = inl (set_error ctx1 GEOCACHE_PARSE_ERROR
                 ("failed to parse geocache config file " +:+ filename
                  +:+ ": unknown tag <" +:+ node_name c +:+ ">"), config1)).
Proof.
  intros Hread He Hroot H0. split; [| split].
  - intros pre c post ctx1 config1 Hch Hpre Herr.
    unfold geocache_configuration_parse.
    rewrite Hread, He, Hroot, xmlStrcmp_refl, Hch, walk_app, Hpre. simpl.
    rewrite dispatch_error_returns; [reflexivity | | exact Herr].
    now apply (walk_inr_no_error _ _ _ _ _ _ Hpre).
  - intros ctx' config' Hwalk. split; [now apply (walk_inr_no_error _ _ _ _ _ _ Hwalk) |].
    split.
    { unfold geocache_configuration_parse.
      now rewrite Hread, He, Hroot, xmlStrcmp_refl, Hwalk. }
    unfold postconditions. repeat split.
    + now intros ->.
    + now intros -> ->.
    + intros -> -> H. apply orb_false_iff in H as [-> ->]. reflexivity.
    + intros -> -> H. simpl.
      destruct (service_enabled config' GEOCACHE_SERVICE_WMS),
        (service_enabled config' GEOCACHE_SERVICE_TMS); try reflexivity; discriminate.
  - intros ctx1 config1 c Hc Hin. unfold dispatch. cbv zeta beta. rewrite Hc. simpl.
    rewrite !xmlStrcmp_neq; [reflexivity | ..]; intros E; apply Hin; rewrite E;
      simpl; tauto.
Qed.

End Orchestrator.

(** C8, as stated, fails twice: an entry with the text "false" after an
    entry that enabled the service leaves the service enabled; and with no
    service enabled and a lock directory that cannot be made, the
    compilation fails with the disk error, not with "no services
    configured". *)
Lemma C8_counterexample :
  ~ (service_enabled
       (services_children ctx0 [elem "wms" [] []; leaf "wms" "false"] cfg0)
       GEOCACHE_SERVICE_WMS = true
     <-> xmlNodeGetContent (leaf "wms" "false") <> "false")
  /\ (let doc := elem "geocache" [] [elem "services" [] [leaf "wms" "false"]] in
      let r := geocache_configuration_parse (SYS := one_file doc false)
                 ctx0 "geocache.xml" cfg0 in
      service_enabled r.2 GEOCACHE_SERVICE_WMS
      || service_enabled r.2 GEOCACHE_SERVICE_TMS = false
      /\ reports r.1
         = [(GEOCACHE_DISK_ERROR, "failed to create lock directory /tmp/geocache_locks")]).
Proof.
  split.
  - intros [H _]. apply H; reflexivity.
  - vm_compute. tauto.
Qed.

(** A block that switches [wms] off and [tms] on; and the document whose
    only entry is [wms] with the text "false", on a writable lock directory. *)
Lemma C8_services_enabled_witness :
  (let config := services_children ctx0 [leaf "wms" "false"; elem "tms" [] []] cfg0 in
   service_enabled config GEOCACHE_SERVICE_WMS = false
   /\ service_enabled config GEOCACHE_SERVICE_TMS = true)
  /\ (let doc := elem "geocache" [] [elem "services" [] [leaf "wms" "false"]] in
      geocache_configuration_parse (SYS := one_file doc true) ctx0 "geocache.xml" cfg0
      = (set_error ctx0 GEOCACHE_PARSE_ERROR
           ("no services configured."
            +:+ " You must add a <services> tag with <wms/> or <tms/> children"),
         cfg0)).
Proof.
  split.
  - intros config.
    destruct (C8_services_enabled (SYS := one_file (elem "geocache" [] []) true) ctx0
                [leaf "wms" "false"; elem "tms" [] []] cfg0 eq_refl) as (Hw & Ht & _).
    split.
    + destruct (service_enabled config GEOCACHE_SERVICE_WMS) eqn:E; [| reflexivity].
      apply Hw in E as [E | (n & [<- | [<- | []]] & E1 & E2)];
        [discriminate E | now elim E2 | discriminate E1].
    + apply Ht. right. exists (elem "tms" [] []).
      split; [simpl; tauto |]. split; [reflexivity | discriminate].
  - intros doc.
    destruct (C8_services_enabled (SYS := one_file doc true) ctx0 [] cfg0 eq_refl)
      as (_ & _ & H).
    apply (H "geocache.xml" doc ctx0 cfg0); reflexivity.
Defined.

(** A document with an unknown tag between a cache and the services: the
    compilation ends at the unknown tag; the cache is registered, the
    services block is not reached and no check is made. *)
Lemma C9_fail_fast_witness :
  let cache := elem "cache" [attr "name" "diskcache"; attr "type" "disk"] [] in
  let doc := elem "geocache" []
               [cache; elem "bogus" [] []; elem "services" [] [elem "wms" [] []]] in
  let r := geocache_configuration_parse (SYS := one_file doc false) ctx0 "g.xml" cfg0 in
  reports r.1
  = [(GEOCACHE_PARSE_ERROR, "failed to parse geocache config file g.xml: unknown tag <bogus>")]
  /\ r.2 = (parseCache ctx0 cache cfg0).2.
Proof.
  intros cache doc r.
  destruct (C9_fail_fast (SYS := one_file doc false) ctx0 "g.xml" doc cfg0)
    as (H & _); try reflexivity.
  subst r.
  rewrite (H [cache] (elem "bogus" [] []) [elem "services" [] [elem "wms" [] []]]
             ctx0 (parseCache ctx0 cache cfg0).2); try reflexivity.
  split; reflexivity.
Defined.

(** * Further properties of the code *)

(** ** The registries *)

Section Registries.

Context {double : Type}.
Local Abbreviation cfg := (geocache_cfg double).

(** X1: Looking a name up after it was added gives the entity back; the other
    names of the registry and the other registries are as they were. *)
Theorem registry_add_get (config : cfg) (key other : string)
    (source : geocache_source) (cache : geocache_cache)
    (tileset : geocache_tileset double) (format : geocache_image_format) :
  other <> key ->
  (let c := geocache_configuration_add_source config source key in
   geocache_configuration_get_source c key = Some source
   /\ geocache_configuration_get_source c other
      = geocache_configuration_get_source config other
   /\ caches c = caches config /\ tilesets c = tilesets config
   /\ image_formats c = image_formats config)
  /\ (let c := geocache_configuration_add_cache config cache key in
      geocache_configuration_get_cache c key = Some cache
      /\ geocache_configuration_get_cache c other
         = geocache_configuration_get_cache config other
      /\ sources c = sources config /\ tilesets c = tilesets config
      /\ image_formats c = image_formats config)
  /\ (let c := geocache_configuration_add_tileset config tileset key in
      geocache_configuration_get_tileset c key = Some tileset
      /\ geocache_configuration_get_tileset c other
         = geocache_configuration_get_tileset config other
      /\ sources c = sources config /\ caches c = caches config
      /\ image_formats c = image_formats config)
  /\ (let c := geocache_configuration_add_image_format config (Some format) key in
      geocache_configuration_get_image_format c key = Some format
      /\ geocache_configuration_get_image_format c other
         = geocache_configuration_get_image_format config other
      /\ sources c = sources config /\ caches c = caches config
      /\ tilesets c = tilesets config).
Proof.
  intros Hne.
  unfold geocache_configuration_get_source, geocache_configuration_get_cache,
    geocache_configuration_get_tileset, geocache_configuration_get_image_format.
  repeat split; simpl;
    try apply lookup_insert_eq; apply lookup_insert_ne; congruence.
Qed.

(** X2: The configuration that [geocache_configuration_create] builds holds
    three formats, under PNG, PNG8 and JPEG (the one under PNG8 was created
    with the name PNG), merges with the one under PNG, and has no source, no
    cache, no tileset and no service. *)
Theorem fresh_configuration (key : string) (f : geocache_image_format) :
  let config : cfg := geocache_configuration_create in
  (geocache_configuration_get_image_format config key = Some f
   <-> (key = "PNG" /\ f = PngFormat "PNG" GEOCACHE_COMPRESSION_FAST)
       \/ (key = "PNG8" /\ f = PngQFormat "PNG" GEOCACHE_COMPRESSION_FAST 256)
       \/ (key = "JPEG" /\ f = JpegFormat "JPEG" 95))
  /\ merge_format config = geocache_configuration_get_image_format config "PNG"
  /\ geocache_configuration_get_source config key = None
  /\ geocache_configuration_get_cache config key = None
  /\ geocache_configuration_get_tileset config key = None
  /\ service_enabled config GEOCACHE_SERVICE_WMS = false
  /\ service_enabled config GEOCACHE_SERVICE_TMS = false
  /\ lockdir config = "/tmp/geocache_locks".
Proof.
  intros config. split; [| repeat split; apply lookup_empty].
  unfold geocache_configuration_get_image_format. subst config. simpl.
  rewrite !lookup_insert. rewrite lookup_empty.
  repeat case_decide; subst;
    (split;
     [ intros E; try discriminate E; injection E as <-; tauto
     | intros [[? ?] | [[? ?] | [? ?]]]; subst; congruence ]).
Qed.

End Registries.

(** ** What a parser changes *)

Lemma png_children_colors (ctx : geocache_context) (name : string) (l : list xmlNode) :
  forall c k c' k',
    png_children ctx name l c k = inr (c', k') -> c' = c \/ 2 <= c' <= 256.
Proof.
  induction l as [| n next IH]; intros c k c' k'; simpl.
  - intros [= <- <-]. now left.
  - destruct (negb (is_element n)); [apply IH |].
    destruct (zero (xmlStrcmp (node_name n) "compression")).
    + destruct (zero (xmlStrcmp (xmlNodeGetContent n) "fast")); [apply IH |].
      destruct (zero (xmlStrcmp (xmlNodeGetContent n) "best")); [apply IH | discriminate].
    + destruct (zero (xmlStrcmp (node_name n) "colors")); [| discriminate].
      destruct (strtol (xmlNodeGetContent n)) as [v endptr].
      destruct (negb (at_end endptr) || (int_of_long v <? 2) || (int_of_long v >? 256))
        eqn:E; [discriminate |].
      apply orb_false_iff in E as [E E3]. apply orb_false_iff in E as [_ E2].
      rewrite Z.gtb_ltb in E3. apply Z.ltb_ge in E2, E3.
      intros H. apply IH in H as [-> | H]; right; lia.
Qed.

Lemma jpeg_children_quality (ctx : geocache_context) (name : string) (l : list xmlNode) :
  forall q q', 1 <= q <= 100 -> jpeg_children ctx name l q = inr q' -> 1 <= q' <= 100.
Proof.
  induction l as [| n next IH]; intros q q' Hq; simpl.
  - now intros [= <-].
  - destruct (negb (is_element n)); [now apply IH |].
    destruct (zero (xmlStrcmp (node_name n) "quality")); [| now apply IH].
    destruct (strtol (xmlNodeGetContent n)) as [v endptr].
    destruct (negb (at_end endptr) || (int_of_long v <? 1) || (int_of_long v >? 100))
      eqn:E; [discriminate |].
    apply orb_false_iff in E as [E E3]. apply orb_false_iff in E as [_ E2].
    rewrite Z.gtb_ltb in E3. apply Z.ltb_ge in E2, E3.
    apply IH. lia.
Qed.

Section Outcomes.

Context {double : Type} {DBL : c_double double}.
Context {SRC : source_driver} {CCH : cache_driver}.
Local Abbreviation cfg := (geocache_cfg double).

Lemma parseSource_outcome (ctx : geocache_context) (node : xmlNode) (config : cfg) :
  let r := parseSource ctx node config in
  (GC_HAS_ERROR r.1 = true /\ r.2 = config)
  \/ (exists name source,
        name_attribute node = Some name /\ sources config !! name = None
        /\ GC_HAS_ERROR r.1 = false
        /\ r.2 = geocache_configuration_add_source config source name).
Proof.
  unfold parseSource, name_attribute.
  split_matches; cbn [fst snd];
    try (left; split; [first [apply has_error_set_error | assumption] | reflexivity]).
  right. eexists _, _. repeat split; eassumption.
Qed.

Lemma parseCache_outcome (ctx : geocache_context) (node : xmlNode) (config : cfg) :
  let r := parseCache ctx node config in
  (GC_HAS_ERROR r.1 = true /\ r.2 = config)
  \/ (exists name cache,
        name_attribute node = Some name /\ caches config !! name = None
        /\ GC_HAS_ERROR r.1 = false
        /\ r.2 = geocache_configuration_add_cache config cache name).
Proof.
  unfold parseCache, name_attribute.
  split_matches; cbn [fst snd];
    try (left; split; [first [apply has_error_set_error | assumption] | reflexivity]).
  right. eexists _, _. repeat split; eassumption.
Qed.

(** [parseTileset] reports one parse error and leaves the configuration,
    or reports nothing and adds one tileset, which passed the checks, under
    its name, which was free. *)
Lemma parseTileset_outcome (ctx : geocache_context) (node : xmlNode) (config : cfg) :
  (exists msg, parseTileset ctx node config
               = (set_error ctx GEOCACHE_PARSE_ERROR msg, config))
  \/ (exists name t t',
        name_attribute node = Some name /\ tilesets config !! name = None
        /\ tileset_children ctx name config (children node)
             (set_name (geocache_tileset_create ctx) (Some name)) = inr t
        /\ t' = set_format t (tileset_format t')
        /\ (tileset_format t' = tileset_format t
            \/ tileset_format t' = merge_format config)
        /\ is_null (tileset_cache t) = false /\ is_null (tileset_source t) = false
        /\ is_null (tileset_srs t) = false
        /\ parseTileset ctx node config
           = (ctx, geocache_configuration_add_tileset config t' name)).
Proof.
  destruct (parseTileset_cases ctx node config)
    as [E | (name & t & _ & Hname & Hfree & Hloop & E)]; [left; exact E |].
  rewrite E. unfold tileset_finish.
  destruct (is_null (tileset_cache t)) eqn:E1; [left; eauto |].
  destruct (is_null (tileset_source t)) eqn:E2; [left; eauto |].
  destruct (is_null (tileset_srs t)) eqn:E3; [left; eauto |].
  destruct (double_eq (extent0 t) (extent2 t) || double_eq (extent1 t) (extent3 t));
    [left; eauto |].
  destruct (levels t =? 0); [left; eauto |].
  right. eexists name, t, _. repeat split; try eassumption; try reflexivity.
  - destruct (is_null (tileset_format t) && _); destruct t; reflexivity.
  - destruct (is_null (tileset_format t) && _); [right | left]; reflexivity.
Qed.

(** Whatever the tag, [parseFormat] leaves the configuration or stores one
    valid format under the name of the node. *)
Lemma parseFormat_outcome (ctx : geocache_context) (node : xmlNode) (config : cfg) :
  (parseFormat ctx node config).2 = config
  \/ (exists name format,
        name_attribute node = Some name /\ format_valid format
        /\ (parseFormat ctx node config).2
           = geocache_configuration_add_image_format config (Some format) name).
Proof.
  unfold parseFormat, name_attribute.
  set (ctx1 := if negb (zero (xmlStrcmp (node_name node) "format")) then _ else ctx).
  destruct (extractNameAndTypeAttributes (properties node)) as [[rc nm] ty].
  cbn [fst snd].
  destruct (nonempty nm) as [name |]; [| now left].
  destruct (nonempty ty) as [type |]; [| now left].
  destruct (zero (strcmp type "PNG")).
  - destruct (png_children ctx1 name (children node) (-1) GEOCACHE_COMPRESSION_DEFAULT)
      as [c | [colors compression]] eqn:El; [now left |].
    apply png_children_colors in El.
    destruct (Z.eqb_spec colors (-1)) as [-> | Hne]; right.
    + exists name, (PngFormat name compression). repeat split.
    + exists name, (PngQFormat name compression colors).
      split; [reflexivity |]. split; [simpl; lia | reflexivity].
  - destruct (zero (strcmp type "JPEG")); [| now left].
    destruct (jpeg_children ctx1 name (children node) 95) as [c | quality] eqn:El;
      [now left |].
    apply jpeg_children_quality in El; [| lia].
    right. exists name, (JpegFormat name quality).
    split; [reflexivity |]. split; [exact El | reflexivity].
Qed.

(** X3: Each of [parseSource] and [parseCache] either ends with an error
    and leaves the configuration untouched, or ends without an error and
    adds one entity under the name of the node, which was free.
    [parseTileset] either appends one parse error to the context and leaves
    the configuration untouched, or leaves the context as it found it and
    adds one tileset under the name of the node, which was free; started
    from a context without an error, it therefore ends with an error and
    the configuration untouched, or without an error and one tileset
    added. *)
Theorem registration_is_atomic (ctx : geocache_context) (node : xmlNode) (config : cfg) :
  (let r := parseSource ctx node config in
   (GC_HAS_ERROR r.1 = true /\ r.2 = config)
   \/ (exists name source,
         name_attribute node = Some name /\ sources config !! name = None
         /\ GC_HAS_ERROR r.1 = false
         /\ r.2 = geocache_configuration_add_source config source name))
  /\ (let r := parseCache ctx node config in
      (GC_HAS_ERROR r.1 = true /\ r.2 = config)
      \/ (exists name cache,
            name_attribute node = Some name /\ caches config !! name = None
            /\ GC_HAS_ERROR r.1 = false
            /\ r.2 = geocache_configuration_add_cache config cache name))
  /\ (let r := parseTileset ctx node config in
      ((exists msg, r = (set_error ctx GEOCACHE_PARSE_ERROR msg, config))
       \/ (exists name t,
             name_attribute node = Some name /\ tilesets config !! name = None
             /\ r = (ctx, geocache_configuration_add_tileset config t name)))
      /\ (GC_HAS_ERROR ctx = false ->
          (GC_HAS_ERROR r.1 = true /\ r.2 = config)
          \/ (exists name t,
                name_attribute node = Some name /\ tilesets config !! name = None
                /\ GC_HAS_ERROR r.1 = false
                /\ r.2 = geocache_configuration_add_tileset config t name))).
Proof.
  split; [apply parseSource_outcome |]. split; [apply parseCache_outcome |].
  destruct (parseTileset_outcome ctx node config)
    as [[msg E] | (name & t & t' & Hn & Hf & _ & _ & _ & _ & _ & _ & E)]; rewrite E;
    cbv zeta; split.
  - left. eauto.
  - intros _. left. split; [apply has_error_set_error | reflexivity].
  - right. exists name, t'. auto.
  - intros Hctx. right. exists name, t'. auto.
Qed.

(** X4: A parser writes to its own registry only, and there only under the
    name of the node: the other names, the other registries and the
    settings are as they were. *)
Theorem parsers_touch_own_registry (ctx : geocache_context) (node : xmlNode)
    (config : cfg) (key : string) :
  name_attribute node <> Some key ->
  (let c := (parseSource ctx node config).2 in
   sources c !! key = sources config !! key /\ caches c = caches config
   /\ tilesets c = tilesets config /\ image_formats c = image_formats config
   /\ same_settings config c)
  /\ (let c := (parseCache ctx node config).2 in
      caches c !! key = caches config !! key /\ sources c = sources config
      /\ tilesets c = tilesets config /\ image_formats c = image_formats config
      /\ same_settings config c)
  /\ (let c := (parseFormat ctx node config).2 in
      image_formats c !! key = image_formats config !! key /\ sources c = sources config
      /\ caches c = caches config /\ tilesets c = tilesets config
      /\ same_settings config c)
  /\ (let c := (parseTileset ctx node config).2 in
      tilesets c !! key = tilesets config !! key /\ sources c = sources config
      /\ caches c = caches config /\ image_formats c = image_formats config
      /\ same_settings config c).
Proof.
  intros Hkey. unfold same_settings. cbv zeta. split; [| split; [| split]].
  - destruct (parseSource_outcome ctx node config)
      as [[_ ->] | (name & x & Hn & _ & _ & ->)]; [tauto |].
    simpl. rewrite lookup_insert_ne by congruence. tauto.
  - destruct (parseCache_outcome ctx node config)
      as [[_ ->] | (name & x & Hn & _ & _ & ->)]; [tauto |].
    simpl. rewrite lookup_insert_ne by congruence. tauto.
  - destruct (parseFormat_outcome ctx node config)
      as [-> | (name & x & Hn & _ & ->)]; [tauto |].
    simpl. rewrite lookup_insert_ne by congruence. tauto.
  - destruct (parseTileset_outcome ctx node config)
      as [[msg ->] | (name & t & t' & Hn & _ & _ & _ & _ & _ & _ & _ & ->)]; [simpl; tauto |].
    simpl. rewrite lookup_insert_ne by congruence. tauto.
Qed.

End Outcomes.

(** The tileset [t1], parsed in a context without an error, is added and
    the context still holds no error. *)
Lemma registration_is_atomic_witness :
  GC_HAS_ERROR ctx0 = false
  /\ (let r := parseTileset ctx0 example_tileset cfg_ready in
      (GC_HAS_ERROR r.1 = true /\ r.2 = cfg_ready)
      \/ (exists name t,
            name_attribute example_tileset = Some name
            /\ tilesets cfg_ready !! name = None
            /\ GC_HAS_ERROR r.1 = false
            /\ r.2 = geocache_configuration_add_tileset cfg_ready t name)).
Proof.
  split; [reflexivity |].
  destruct (registration_is_atomic ctx0 example_tileset cfg_ready) as (_ & _ & _ & H).
  exact (H eq_refl).
Defined.

(** [parseTileset] does not test the context it is given: in a context
    that already holds an error, the tileset [t1] is added all the same and
    the error stays. *)
Example tileset_added_in_failed_context :
  let ctx := set_error ctx0 GEOCACHE_PARSE_ERROR "earlier" in
  let r := parseTileset ctx example_tileset cfg_ready in
  r.1 = ctx /\ GC_HAS_ERROR r.1 = true /\ is_Some (tilesets r.2 !! "t1").
Proof. vm_compute. repeat split. eauto. Qed.

(** ** Invariants of the walk *)

Section Compilation.

Context {double : Type} {DBL : c_double double}.
Context {SRC : source_driver} {CCH : cache_driver} {SYS : platform}.
Local Abbreviation cfg := (geocache_cfg double).

(** The [services] block writes to the services only. *)
Lemma services_children_frame (ctx : geocache_context) (l : list xmlNode) :
  forall config : cfg,
    let c := services_children ctx l config in
    sources c = sources config /\ caches c = caches config
    /\ tilesets c = tilesets config /\ image_formats c = image_formats config
    /\ merge_format c = merge_format config /\ lockdir c = lockdir config
    /\ length (services c) = length (services config).
Proof.
  induction l as [| n next IH]; intros config; simpl; [tauto |].
  destruct (negb (is_element n)); [apply IH |].
  destruct (zero (xmlStrcmp (node_name n) "wms")).
  - destruct (enables (xmlNodeGetContent n)); [| apply IH].
    specialize (IH (with_services config
                      (<[GEOCACHE_SERVICE_WMS := geocache_service_wms_create ctx]>
                         (services config)))).
    simpl in IH. rewrite length_insert in IH. exact IH.
  - destruct (zero (xmlStrcmp (node_name n) "tms")); [| apply IH].
    destruct (enables (xmlNodeGetContent n)); [| apply IH].
    specialize (IH (with_services config
                      (<[GEOCACHE_SERVICE_TMS := geocache_service_tms_create ctx]>
                         (services config)))).
    simpl in IH. rewrite length_insert in IH. exact IH.
Qed.

(** The configuration that the body of the top-level loop leaves. *)
Lemma handled_config (ctx : geocache_context) (filename : string) (c : xmlNode)
    (config : cfg) :
  let c' := (handled ctx filename c config).2 in
  c' = config \/ c' = (parseSource ctx c config).2 \/ c' = (parseCache ctx c config).2
  \/ c' = (parseFormat ctx c config).2 \/ c' = (parseTileset ctx c config).2
  \/ c' = services_children ctx (children c) config
  \/ (exists f, image_formats config !! xmlNodeGetContent c = Some f
                /\ c' = with_merge_format config (Some f))
  \/ c' = with_lockdir config (xmlNodeGetContent c).
Proof.
  unfold handled, dispatch. cbv zeta beta.
  unfold geocache_configuration_get_image_format.
  destruct (negb (is_element c)); [tauto |].
  destruct (zero (xmlStrcmp (node_name c) "source"));
    [destruct (GC_HAS_ERROR _); tauto |].
  destruct (zero (xmlStrcmp (node_name c) "cache"));
    [destruct (GC_HAS_ERROR _); tauto |].
  destruct (zero (xmlStrcmp (node_name c) "format"));
    [destruct (GC_HAS_ERROR _); tauto |].
  destruct (zero (xmlStrcmp (node_name c) "tileset"));
    [destruct (GC_HAS_ERROR _); tauto |].
  destruct (zero (xmlStrcmp (node_name c) "services")); [tauto |].
  destruct (zero (xmlStrcmp (node_name c) "merge_format")).
  - destruct (image_formats config !! xmlNodeGetContent c) as [f |] eqn:E; [| tauto].
    do 6 right. left. exists f. split; reflexivity.
  - destruct (zero (xmlStrcmp (node_name c) "lock_dir")); tauto.
Qed.

Lemma walk_invariant (P : cfg -> Prop) :
  (forall ctx filename c config, P config -> P (handled ctx filename c config).2) ->
  forall l ctx filename config,
    P config -> P (finished (walk ctx filename l config)).2.
Proof.
  intros Hstep. induction l as [| n next IH]; intros ctx filename config H; simpl;
    [exact H |].
  specialize (Hstep ctx filename n config H). unfold handled in Hstep.
  destruct (dispatch ctx filename n config) as [r | [c g]]; [exact Hstep |].
  apply IH. exact Hstep.
Qed.

Lemma postconditions_config (ctx : geocache_context) (config : cfg) :
  (postconditions ctx config).2 = config.
Proof. unfold postconditions. split_matches; reflexivity. Qed.

Lemma compile_invariant (P : cfg -> Prop) :
  (forall ctx filename c config, P config -> P (handled ctx filename c config).2) ->
  forall ctx filename config,
    P config -> P (geocache_configuration_parse ctx filename config).2.
Proof.
  intros Hstep ctx filename config H. unfold geocache_configuration_parse.
  destruct (xmlReadFile filename) as [root |]; [| exact H].
  destruct (is_element root && zero (xmlStrcmp (node_name root) "geocache"));
    [| exact H].
  pose proof (walk_invariant P Hstep (children root) ctx filename config H) as Hw.
  destruct (walk ctx filename (children root) config) as [r | [c g]]; [exact Hw |].
  rewrite postconditions_config. exact Hw.
Qed.

Lemma handled_keeps_registrations (ctx : geocache_context) (filename : string)
    (c : xmlNode) (config : cfg) :
  registrations_kept config (handled ctx filename c config).2.
Proof.
  unfold registrations_kept.
  destruct (handled_config ctx filename c config)
    as [-> | [-> | [-> | [-> | [-> | [-> | [(f & _ & ->) | ->]]]]]]]; try done.
  - destruct (parseSource_outcome ctx c config)
      as [[_ ->] | (name & x & _ & Hfree & _ & ->)]; [done |].
    simpl. split; [now apply insert_subseteq | done].
  - destruct (parseCache_outcome ctx c config)
      as [[_ ->] | (name & x & _ & Hfree & _ & ->)]; [done |].
    simpl. split; [done |]. split; [now apply insert_subseteq | done].
  - destruct (parseFormat_outcome ctx c config)
      as [-> | (name & x & _ & _ & ->)]; done.
  - destruct (parseTileset_outcome ctx c config)
      as [[msg ->] | (name & t & t' & _ & Hfree & _ & _ & _ & _ & _ & _ & ->)]; [done |].
    simpl. split; [done |]. split; [done | now apply insert_subseteq].
  - destruct (services_children_frame ctx (children c) config)
      as (-> & -> & -> & _). done.
Qed.

(** X5: A source, a cache or a tileset that is registered stays registered, as
    it is, to the end of the compilation, however the compilation ends. *)
Theorem registrations_are_permanent (ctx : geocache_context) (filename : string)
    (config : cfg) (key : string) :
  let c := (geocache_configuration_parse ctx filename config).2 in
  (forall s, sources config !! key = Some s -> sources c !! key = Some s)
  /\ (forall x, caches config !! key = Some x -> caches c !! key = Some x)
  /\ (forall t, tilesets config !! key = Some t -> tilesets c !! key = Some t).
Proof.
  intros c.
  assert (registrations_kept config c) as (Hs & Hc & Ht).
  { subst c. apply (compile_invariant (registrations_kept config)).
    - intros ctx1 f1 c1 config1 (H1 & H2 & H3).
      destruct (handled_keeps_registrations ctx1 f1 c1 config1) as (K1 & K2 & K3).
      repeat split; etrans; eassumption.
    - done. }
  repeat split; intros x Hx; eapply lookup_weaken; eassumption.
Qed.

End Compilation.

(** ** More on the tileset parser *)

Section TilesetReferences.

Context {double : Type} {DBL : c_double double}.
Local Abbreviation cfg := (geocache_cfg double).
Local Abbreviation tileset := (geocache_tileset double).

Variables (ctx : geocache_context) (name : string) (config : cfg).

(** What a child can put into the three references of a tileset comes
    from the registries. *)
Lemma tileset_child_refs (n : xmlNode) (t t' : tileset) :
  tileset_child ctx name config n t = inr t' ->
  (forall c, tileset_cache t' = Some c ->
             tileset_cache t = Some c \/ exists k, caches config !! k = Some c)
  /\ (forall s, tileset_source t' = Some s ->
                tileset_source t = Some s \/ exists k, sources config !! k = Some s)
  /\ (forall f, tileset_format t' = Some f ->
                tileset_format t = Some f \/ exists k, image_formats config !! k = Some f).
Proof.
  unfold tileset_child, geocache_configuration_get_cache,
    geocache_configuration_get_source, geocache_configuration_get_image_format.
  split_matches; intros [= <-]; simpl; repeat split; intros x Hx; auto;
    injection Hx as <-; right; eexists; eassumption.
Qed.

Lemma tileset_children_refs (l : list xmlNode) :
  forall t t' : tileset,
    tileset_children ctx name config l t = inr t' ->
    (forall c, tileset_cache t' = Some c ->
               tileset_cache t = Some c \/ exists k, caches config !! k = Some c)
    /\ (forall s, tileset_source t' = Some s ->
                  tileset_source t = Some s \/ exists k, sources config !! k = Some s)
    /\ (forall f, tileset_format t' = Some f ->
                  tileset_format t = Some f
                  \/ exists k, image_formats config !! k = Some f).
Proof.
  induction l as [| n next IH]; intros t t'; simpl.
  - intros [= <-]. auto.
  - destruct (tileset_child ctx name config n t) as [c | t1] eqn:E; [discriminate |].
    intros H. destruct (IH _ _ H) as (I1 & I2 & I3).
    destruct (tileset_child_refs _ _ _ E) as (C1 & C2 & C3).
    repeat split; intros x Hx.
    + destruct (I1 x Hx); auto.
    + destruct (I2 x Hx); auto.
    + destruct (I3 x Hx); auto.
Qed.

(** A child that is not a [cache], a [source] or an [srs] element leaves
    the cache, the source or the srs of the tileset alone. *)
Lemma tileset_child_parts (n : xmlNode) (t t' : tileset) :
  tileset_child ctx name config n t = inr t' ->
  (is_child "cache" n = false -> tileset_cache t' = tileset_cache t)
  /\ (is_child "source" n = false -> tileset_source t' = tileset_source t)
  /\ (is_child "srs" n = false -> tileset_srs t' = tileset_srs t).
Proof.
  unfold tileset_child, is_child.
  destruct (is_element n); simpl; [| intros [= <-]; auto].
  split_matches; intros [= <-]; simpl; repeat split; intros; try reflexivity;
    discriminate.
Qed.

Lemma tileset_children_parts (l : list xmlNode) :
  forall t t' : tileset,
    tileset_children ctx name config l t = inr t' ->
    (last_child "cache" l = None -> tileset_cache t' = tileset_cache t)
    /\ (last_child "source" l = None -> tileset_source t' = tileset_source t)
    /\ (last_child "srs" l = None -> tileset_srs t' = tileset_srs t).
Proof.
  induction l as [| n next IH]; intros t t'; simpl.
  - intros [= <-]. auto.
  - destruct (tileset_child ctx name config n t) as [c | t1] eqn:E; [discriminate |].
    intros H. destruct (IH _ _ H) as (I1 & I2 & I3).
    destruct (tileset_child_parts _ _ _ E) as (C1 & C2 & C3).
    repeat split; intros Hl.
    + destruct (last_child "cache" next); [discriminate |].
      destruct (is_child "cache" n); [discriminate |]. rewrite I1, C1; reflexivity.
    + destruct (last_child "source" next); [discriminate |].
      destruct (is_child "source" n); [discriminate |]. rewrite I2, C2; reflexivity.
    + destruct (last_child "srs" next); [discriminate |].
      destruct (is_child "srs" n); [discriminate |]. rewrite I3, C3; reflexivity.
Qed.

(** The format of the tileset after a [format] child. *)
Lemma tileset_child_explicit_format (n : xmlNode) (t t' : tileset) :
  tileset_child ctx name config n t = inr t' ->
  is_child "format" n = true ->
  tileset_format t' = image_formats config !! xmlNodeGetContent n
  /\ is_Some (tileset_format t').
Proof.
  unfold tileset_child, is_child, geocache_configuration_get_image_format.
  destruct (is_element n); simpl; [| discriminate].
  intros H E. apply xmlStrcmp_zero in E. revert H. rewrite E. decide_tags. cbv iota.
  destruct (image_formats config !! xmlNodeGetContent n) as [f |]; [| discriminate].
  intros [= <-]. simpl. eauto.
Qed.

Lemma tileset_children_explicit_format (l : list xmlNode) :
  forall t t' : tileset,
    tileset_children ctx name config l t = inr t' ->
    forall n, last_child "format" l = Some n ->
    tileset_format t' = image_formats config !! xmlNodeGetContent n
    /\ is_Some (tileset_format t').
Proof.
  induction l as [| n next IH]; intros t t'; simpl; [discriminate |].
  destruct (tileset_child ctx name config n t) as [c | t1] eqn:E; [discriminate |].
  intros H m Hm.
  destruct (last_child "format" next) as [m' |] eqn:El.
  - apply (IH _ _ H). congruence.
  - destruct (is_child "format" n) eqn:Ec; [| discriminate]. injection Hm as <-.
    rewrite (tileset_children_format ctx name config _ _ _ H El).
    now apply (tileset_child_explicit_format n t).
Qed.

(** A child that is no element or has none of the ten tags is passed over. *)
Lemma tileset_child_passed_over (n : xmlNode) (t : tileset) :
  recognised n = false -> tileset_child ctx name config n t = inr t.
Proof.
  unfold recognised, tileset_child, tileset_tags.
  destruct (is_element n); simpl; [| reflexivity].
  intros H. repeat (apply orb_false_iff in H as [E H]; rewrite E; clear E). reflexivity.
Qed.

Lemma tileset_children_filter (l : list xmlNode) :
  forall t : tileset,
    tileset_children ctx name config l t
    = tileset_children ctx name config (List.filter recognised l) t.
Proof.
  induction l as [| n next IH]; intros t; simpl; [reflexivity |].
  destruct (recognised n) eqn:E; simpl.
  - destruct (tileset_child ctx name config n t); [reflexivity | apply IH].
  - rewrite (tileset_child_passed_over n t E). apply IH.
Qed.

Lemma tileset_children_app (l1 l2 : list xmlNode) :
  forall t : tileset,
    tileset_children ctx name config (l1 ++ l2) t
    = match tileset_children ctx name config l1 t with
      | inl c => inl c
      | inr t1 => tileset_children ctx name config l2 t1
      end.
Proof.
  induction l1 as [| n next IH]; intros t; simpl; [reflexivity |].
  destruct (tileset_child ctx name config n t); [reflexivity | apply IH].
Qed.

End TilesetReferences.

Section TilesetMore.

Context {double : Type} {DBL : c_double double}.
Local Abbreviation cfg := (geocache_cfg double).
Local Abbreviation tileset := (geocache_tileset double).

(** X8: Two tileset nodes with the same tag and attributes, whose children
    differ only by nodes that are no elements or by elements with none of
    the ten tags, are parsed alike: such children are passed over without a
    report. *)
Theorem tileset_ignores_unrecognised (ctx : geocache_context) (node1 node2 : xmlNode)
    (config : cfg) :
  node_name node1 = node_name node2 -> properties node1 = properties node2 ->
  List.filter recognised (children node1) = List.filter recognised (children node2) ->
  parseTileset ctx node1 config = parseTileset ctx node2 config.
Proof.
  intros Htag Hprops Hch. unfold parseTileset. rewrite Htag, Hprops.
  destruct (negb (zero (xmlStrcmp (node_name node2) "tileset"))); [reflexivity |].
  destruct (extractNameAndTypeAttributes (properties node2)) as [[rc nm] ty].
  destruct (nonempty nm) as [name |]; [| reflexivity].
  destruct (geocache_configuration_get_tileset config name); [reflexivity |].
  rewrite (tileset_children_filter ctx name config (children node1)),
    (tileset_children_filter ctx name config (children node2)), Hch.
  reflexivity.
Qed.

(** X9: A tileset node without a [cache], without a [source] or without an
    [srs] child is refused with a parse error and nothing is registered. *)
Theorem tileset_needs_cache_source_srs (ctx : geocache_context) (node : xmlNode)
    (config : cfg) :
  last_child "cache" (children node) = None
  \/ last_child "source" (children node) = None
  \/ last_child "srs" (children node) = None ->
  exists msg, parseTileset ctx node config
              = (set_error ctx GEOCACHE_PARSE_ERROR msg, config).
Proof.
  intros Hmiss.
  destruct (parseTileset_outcome ctx node config)
    as [E | (name & t & t' & _ & _ & Hloop & _ & _ & H1 & H2 & H3 & _)]; [exact E |].
  exfalso. destruct (tileset_children_parts ctx name config _ _ _ Hloop) as (P1 & P2 & P3).
  destruct Hmiss as [H | [H | H]].
  - rewrite (P1 H) in H1. discriminate.
  - rewrite (P2 H) in H2. discriminate.
  - rewrite (P3 H) in H3. discriminate.
Qed.

(** X10: The first child that names a cache, a source or a format that is not
    registered ends the parsing of the tileset with a report that names the
    tileset and the missing entity; the configuration is left as it was. *)
Theorem tileset_dangling_reference (ctx : geocache_context) (node n : xmlNode)
    (config : cfg) (name : string) (pre post : list xmlNode) (t : tileset) :
  node_name node = "tileset" -> name_attribute node = Some name ->
  tilesets config !! name = None ->
  children node = pre ++ n :: post ->
  tileset_children ctx name config pre
    (set_name (geocache_tileset_create ctx) (Some name)) = inr t ->
  (is_child "cache" n = true -> caches config !! xmlNodeGetContent n = None ->
   parseTileset ctx node config
   = (set_error ctx GEOCACHE_PARSE_ERROR
        ("tileset " +:+ quoted name +:+ " references cache "
         +:+ quoted (xmlNodeGetContent n) +:+ "," +:+ " but it is not configured"),
      config))
  /\ (is_child "source" n = true -> sources config !! xmlNodeGetContent n = None ->
      parseTileset ctx node config
      = (set_error ctx GEOCACHE_PARSE_ERROR
           ("tileset " +:+ quoted name +:+ " references source "
            +:+ quoted (xmlNodeGetContent n) +:+ "," +:+ " but it is not configured"),
         config))
  /\ (is_child "format" n = true -> image_formats config !! xmlNodeGetContent n = None ->
      parseTileset ctx node config
      = (set_error ctx GEOCACHE_PARSE_ERROR
           ("tileset " +:+ quoted name +:+ " references format "
            +:+ quoted (xmlNodeGetContent n) +:+ "," +:+ " but it is not configured"),
         config)).
Proof.
  intros Htag Hname Hfree Hch Hpre.
  assert (forall r,
            tileset_child ctx name config n t = inl r ->
            parseTileset ctx node config = (r, config)) as Hret.
  { intros r Hr. unfold parseTileset, name_attribute in *.
    rewrite Htag, xmlStrcmp_refl. simpl.
    destruct (extractNameAndTypeAttributes (properties node)) as [[rc nm] ty].
    simpl in Hname. rewrite Hname. unfold geocache_configuration_get_tileset.
    rewrite Hfree, Hch, tileset_children_app, Hpre. simpl. now rewrite Hr. }
  unfold is_child. repeat split; intros Hc Hnone; apply andb_true_iff in Hc as [He Hc];
    apply xmlStrcmp_zero in Hc; apply Hret; unfold tileset_child,
    geocache_configuration_get_cache, geocache_configuration_get_source,
    geocache_configuration_get_image_format; rewrite He, Hc; simpl; decide_tags;
    cbv iota; rewrite Hnone; reflexivity.
Qed.

Lemma tileset_finish_explicit (ctx : geocache_context) (name : string) (config : cfg)
    (t : tileset) :
  is_Some (tileset_format t) ->
  (exists msg, tileset_finish ctx name config t
               = (set_error ctx GEOCACHE_PARSE_ERROR msg, config))
  \/ tileset_finish ctx name config t
     = (ctx, geocache_configuration_add_tileset config t name).
Proof.
  intros [f Hf]. unfold tileset_finish. rewrite Hf. simpl.
  split_matches; eauto.
Qed.

(** X11: A registered tileset whose node has a [format] child has the format
    that was registered, when the tileset was parsed, under the text of the
    last such child, whatever its metatiles are. *)
Theorem tileset_explicit_format (ctx : geocache_context) (node n : xmlNode)
    (config : cfg) (key : string) (ts : tileset) :
  tilesets config !! key = None ->
  tilesets (parseTileset ctx node config).2 !! key = Some ts ->
  last_child "format" (children node) = Some n ->
  tileset_format ts = image_formats config !! xmlNodeGetContent n
  /\ is_Some (tileset_format ts).
Proof.
  intros Hfree Hreg Hn.
  destruct (parseTileset_cases ctx node config)
    as [[msg E] | (name & t & _ & _ & _ & Hloop & E)].
  { rewrite E in Hreg. simpl in Hreg. congruence. }
  destruct (tileset_children_explicit_format ctx name config _ _ _ Hloop n Hn)
    as [Hf Hs].
  rewrite E in Hreg.
  destruct (tileset_finish_explicit ctx name config t Hs) as [[msg F] | F];
    rewrite F in Hreg; simpl in Hreg; [congruence |].
  destruct (decide (name = key)) as [-> | Hne].
  - rewrite lookup_insert_eq in Hreg. injection Hreg as <-. auto.
  - rewrite lookup_insert_ne in Hreg by exact Hne. congruence.
Qed.

End TilesetMore.

(** ** Invariants of the compiled configuration *)

Section CompiledConfiguration.

Context {double : Type} {DBL : c_double double}.
Context {SRC : source_driver} {CCH : cache_driver} {SYS : platform}.
Local Abbreviation cfg := (geocache_cfg double).

Lemma not_null_Some {A : Type} (p : option A) : is_null p = false -> is_Some p.
Proof. destruct p; [eauto | discriminate]. Qed.

Lemma handled_keeps_references (ctx : geocache_context) (filename : string)
    (c : xmlNode) (config : cfg) :
  references_resolved config ->
  references_resolved (handled ctx filename c config).2.
Proof.
  intros Hinv.
  destruct (handled_config ctx filename c config)
    as [-> | [-> | [-> | [-> | [-> | [-> | [(f & _ & ->) | ->]]]]]]]; try exact Hinv.
  - destruct (parseSource_outcome ctx c config)
      as [[_ ->] | (name & x & _ & Hfree & _ & ->)]; [exact Hinv |].
    intros key t Ht. destruct (Hinv key t Ht) as [Hc (k & s & Hs & Hk)].
    split; [exact Hc |]. exists k, s. split; [exact Hs |]. simpl.
    rewrite lookup_insert_ne; [exact Hk | congruence].
  - destruct (parseCache_outcome ctx c config)
      as [[_ ->] | (name & x & _ & Hfree & _ & ->)]; [exact Hinv |].
    intros key t Ht. destruct (Hinv key t Ht) as [(k & s & Hs & Hk) Hc].
    split; [| exact Hc]. exists k, s. split; [exact Hs |]. simpl.
    rewrite lookup_insert_ne; [exact Hk | congruence].
  - destruct (parseFormat_outcome ctx c config)
      as [-> | (name & x & _ & _ & ->)]; exact Hinv.
  - destruct (parseTileset_outcome ctx c config)
      as [[msg ->] | (name & t & t' & _ & Hfree & Hloop & Ht' & _ & H1 & H2 & _ & ->)];
      [exact Hinv |].
    intros key ts. simpl. destruct (decide (name = key)) as [-> | Hne].
    + rewrite lookup_insert_eq. intros [= <-].
      destruct (tileset_children_refs ctx key config _ _ _ Hloop) as (R1 & R2 & _).
      apply not_null_Some in H1 as [x1 Hx1]. apply not_null_Some in H2 as [x2 Hx2].
      rewrite Ht'. simpl. split.
      * destruct (R1 x1 Hx1) as [H | [k Hk]]; [discriminate H | eauto].
      * destruct (R2 x2 Hx2) as [H | [k Hk]]; [discriminate H | eauto].
    + rewrite lookup_insert_ne by exact Hne. apply Hinv.
  - destruct (services_children_frame ctx (children c) config)
      as (E1 & E2 & E3 & _).
    intros key t. rewrite E1, E2, E3. apply Hinv.
Qed.

(** X6: When every tileset of the configuration points at a cache and at a
    source that are registered, so does every tileset of the configuration
    that the compilation leaves, however the compilation ends. *)
Theorem references_stay_resolved (ctx : geocache_context) (filename : string)
    (config : cfg) :
  references_resolved config ->
  references_resolved (geocache_configuration_parse ctx filename config).2.
Proof.
  apply (compile_invariant references_resolved). intros. now apply handled_keeps_references.
Qed.

Lemma handled_keeps_formats_valid (ctx : geocache_context) (filename : string)
    (c : xmlNode) (config : cfg) :
  formats_valid config -> formats_valid (handled ctx filename c config).2.
Proof.
  intros (Hf & Hm & Ht).
  destruct (handled_config ctx filename c config)
    as [-> | [-> | [-> | [-> | [-> | [-> | [(f & Hin & ->) | ->]]]]]]];
    try (repeat split; assumption).
  - destruct (parseSource_outcome ctx c config)
      as [[_ ->] | (name & x & _ & _ & _ & ->)]; repeat split; assumption.
  - destruct (parseCache_outcome ctx c config)
      as [[_ ->] | (name & x & _ & _ & _ & ->)]; repeat split; assumption.
  - destruct (parseFormat_outcome ctx c config)
      as [-> | (name & x & _ & Hx & ->)]; [repeat split; assumption |].
    repeat split; try assumption. simpl. intros key f.
    destruct (decide (name = key)) as [-> | Hne].
    + rewrite lookup_insert_eq. now intros [= <-].
    + rewrite lookup_insert_ne by exact Hne. apply Hf.
  - destruct (parseTileset_outcome ctx c config)
      as [[msg ->] | (name & t & t' & _ & _ & Hloop & _ & Hfmt & _ & _ & _ & ->)];
      [repeat split; assumption |].
    repeat split; try assumption. simpl. intros key ts f.
    destruct (decide (name = key)) as [-> | Hne].
    + rewrite lookup_insert_eq. intros [= <-] Hts.
      destruct Hfmt as [E | E]; rewrite E in Hts; [| now apply Hm].
      destruct (tileset_children_refs ctx key config _ _ _ Hloop) as (_ & _ & R3).
      destruct (R3 f Hts) as [H | [k Hk]]; [discriminate H | now apply (Hf k)].
    + rewrite lookup_insert_ne by exact Hne. apply Ht.
  - destruct (services_children_frame ctx (children c) config)
      as (_ & _ & E3 & E4 & E5 & _).
    repeat split.
    + intros key f. rewrite E4. apply Hf.
    + intros f. rewrite E5. apply Hm.
    + intros key t f. rewrite E3. apply Ht.
  - repeat split; try assumption. simpl. intros f' [= <-]. now apply (Hf _ _ Hin).
Qed.

(** X7: When every format that the configuration holds, merges with or gives
    to a tileset is valid (a quantized PNG has 2 to 256 colors, a JPEG a
    quality of 1 to 100), the same is true of the configuration that the
    compilation leaves. *)
Theorem formats_stay_valid (ctx : geocache_context) (filename : string) (config : cfg) :
  formats_valid config ->
  formats_valid (geocache_configuration_parse ctx filename config).2.
Proof.
  apply (compile_invariant formats_valid). intros. now apply handled_keeps_formats_valid.
Qed.

End CompiledConfiguration.

(** ** The format that a node describes *)

Lemma set_error_changes (ctx : geocache_context) (code : geocache_error_code)
    (msg : string) : set_error ctx code msg <> ctx.
Proof.
  intros E. apply (f_equal (fun c => length (reports c))) in E.
  unfold set_error in E. simpl in E. rewrite length_app in E. simpl in E. lia.
Qed.

Lemma png_children_last (ctx : geocache_context) (name : string) (l : list xmlNode) :
  forall c k c' k',
    png_children ctx name l c k = inr (c', k') ->
    match last_child "colors" l with
    | Some n => c' = int_content n /\ 2 <= c' <= 256
    | None => c' = c
    end
    /\ k' = match last_child "compression" l with
            | Some n => compression_of (xmlNodeGetContent n)
            | None => k
            end.
Proof.
  induction l as [| n next IH]; intros c k c' k'; simpl.
  - intros [= <- <-]. auto.
  - unfold is_child, compression_of, int_content.
    destruct (is_element n); simpl;
      [| intros H; apply IH in H;
         destruct (last_child "colors" next), (last_child "compression" next); exact H].
    destruct (zero (xmlStrcmp (node_name n) "compression")) eqn:Ec.
    + apply xmlStrcmp_zero in Ec. rewrite Ec. decide_tags.
      destruct (zero (xmlStrcmp (xmlNodeGetContent n) "fast")) eqn:Ef.
      * intros H. apply IH in H as [H1 H2].
        destruct (last_child "colors" next), (last_child "compression" next);
          (split; [exact H1 | rewrite ?Ef; exact H2]).
      * destruct (zero (xmlStrcmp (xmlNodeGetContent n) "best")); [| discriminate].
        intros H. apply IH in H as [H1 H2].
        destruct (last_child "colors" next), (last_child "compression" next);
          (split; [exact H1 | rewrite ?Ef; exact H2]).
    + destruct (zero (xmlStrcmp (node_name n) "colors")) eqn:Eo; [| discriminate].
      destruct (strtol (xmlNodeGetContent n)) as [v endptr] eqn:Es. cbn [fst].
      destruct (negb (at_end endptr) || (int_of_long v <? 2) || (int_of_long v >? 256))
        eqn:E; [discriminate |].
      apply orb_false_iff in E as [E E3]. apply orb_false_iff in E as [_ E2].
      rewrite Z.gtb_ltb in E3. apply Z.ltb_ge in E2, E3.
      intros H. apply IH in H as [H1 H2].
      destruct (last_child "colors" next), (last_child "compression" next);
        (split; [first [exact H1 | rewrite Es; split; [exact H1 | cbn [fst]; lia]]
                | exact H2]).
Qed.

Lemma jpeg_children_last (ctx : geocache_context) (name : string) (l : list xmlNode) :
  forall q q',
    jpeg_children ctx name l q = inr q' ->
    match last_child "quality" l with
    | Some n => q' = int_content n /\ 1 <= q' <= 100
    | None => q' = q
    end.
Proof.
  induction l as [| n next IH]; intros q q'; simpl.
  - now intros [= <-].
  - unfold is_child, int_content. destruct (is_element n); simpl;
      [| intros H; apply IH in H; destruct (last_child "quality" next); exact H].
    destruct (zero (xmlStrcmp (node_name n) "quality")).
    + destruct (strtol (xmlNodeGetContent n)) as [v endptr] eqn:Es. cbn [fst].
      destruct (negb (at_end endptr) || (int_of_long v <? 1) || (int_of_long v >? 100))
        eqn:E; [discriminate |].
      apply orb_false_iff in E as [E E3]. apply orb_false_iff in E as [_ E2].
      rewrite Z.gtb_ltb in E3. apply Z.ltb_ge in E2, E3.
      intros H. apply IH in H.
      destruct (last_child "quality" next); [exact H |].
      rewrite Es. split; [exact H | cbn [fst]; lia].
    + intros H. apply IH in H. destruct (last_child "quality" next); exact H.
Qed.

Section FormatBuilt.

Context {double : Type}.
Local Abbreviation cfg := (geocache_cfg double).

(** X12: A [format] node that is parsed without a report is stored under its
    name as follows.  Of type PNG: quantized to the colors of its last
    [colors] child if it has one, plain otherwise, with the effort of its
    last [compression] child, the default effort without one.  Of type JPEG:
    with the quality of its last [quality] child, 95 without one. *)
Theorem format_built_from_children (ctx : geocache_context) (node : xmlNode)
    (config : cfg) (name : string) :
  node_name node = "format" -> name_attribute node = Some name ->
  (parseFormat ctx node config).1 = ctx ->
  (type_attribute node = Some "PNG" ->
   let effort := match last_child "compression" (children node) with
                 | Some n => compression_of (xmlNodeGetContent n)
                 | None => GEOCACHE_COMPRESSION_DEFAULT
                 end in
   (parseFormat ctx node config).2
   = geocache_configuration_add_image_format config
       (Some match last_child "colors" (children node) with
             | Some n => PngQFormat name effort (int_content n)
             | None => PngFormat name effort
             end) name)
  /\ (type_attribute node = Some "JPEG" ->
      (parseFormat ctx node config).2
      = geocache_configuration_add_image_format config
          (Some (JpegFormat name
                   match last_child "quality" (children node) with
                   | Some n => int_content n
                   | None => 95
                   end)) name).
Proof.
  intros Htag Hname. unfold name_attribute, type_attribute, parseFormat in *.
  rewrite Htag, xmlStrcmp_refl. cbv beta iota zeta delta [negb].
  destruct (extractNameAndTypeAttributes (properties node)) as [[rc nm] ty].
  cbn [fst snd] in *. rewrite Hname. intros Hok. split; intros Hty; rewrite Hty in *.
  - change (zero (strcmp "PNG" "PNG")) with true in *. cbv iota in *.
    destruct (png_children ctx name (children node) (-1) GEOCACHE_COMPRESSION_DEFAULT)
      as [c | [colors compression]] eqn:El.
    + apply png_children_inl in El as [msg ->]. simpl in Hok.
      now apply set_error_changes in Hok.
    + apply png_children_last in El as [Hc ->].
      destruct (last_child "colors" (children node)) as [n |].
      * destruct Hc as [Hc Hr]. destruct (Z.eqb_spec colors (-1)); [lia |].
        simpl. now rewrite Hc.
      * subst colors. reflexivity.
  - change (zero (strcmp "JPEG" "PNG")) with false in *.
    change (zero (strcmp "JPEG" "JPEG")) with true in *. cbv iota in *.
    destruct (jpeg_children ctx name (children node) 95) as [c | quality] eqn:El.
    + apply jpeg_children_inl in El as [msg ->]. simpl in Hok.
      now apply set_error_changes in Hok.
    + apply jpeg_children_last in El.
      destruct (last_child "quality" (children node)) as [n |].
      * destruct El as [-> _]. reflexivity.
      * subst quality. reflexivity.
Qed.

End FormatBuilt.

(** ** A compilation without an error *)

Section Success.

Context {double : Type} {DBL : c_double double}.
Context {SRC : source_driver} {CCH : cache_driver} {SYS : platform}.
Local Abbreviation cfg := (geocache_cfg double).

(** The loop returns from its body only with an error in the context. *)
Lemma dispatch_inl_error (ctx : geocache_context) (filename : string) (c : xmlNode)
    (config : cfg) (r : geocache_context * cfg) :
  dispatch ctx filename c config = inl r -> GC_HAS_ERROR r.1 = true.
Proof.
  unfold dispatch. cbv zeta beta.
  destruct (negb (is_element c)); [discriminate |].
  destruct (zero (xmlStrcmp (node_name c) "source"));
    [destruct (GC_HAS_ERROR _) eqn:E; [now intros [= <-] | discriminate] |].
  destruct (zero (xmlStrcmp (node_name c) "cache"));
    [destruct (GC_HAS_ERROR _) eqn:E; [now intros [= <-] | discriminate] |].
  destruct (zero (xmlStrcmp (node_name c) "format"));
    [destruct (GC_HAS_ERROR _) eqn:E; [now intros [= <-] | discriminate] |].
  destruct (zero (xmlStrcmp (node_name c) "tileset"));
    [destruct (GC_HAS_ERROR _) eqn:E; [now intros [= <-] | discriminate] |].
  destruct (zero (xmlStrcmp (node_name c) "services")); [discriminate |].
  destruct (zero (xmlStrcmp (node_name c) "merge_format")).
  - destruct (geocache_configuration_get_image_format config (xmlNodeGetContent c));
      [discriminate |].
    intros [= <-]. apply has_error_set_error.
  - destruct (zero (xmlStrcmp (node_name c) "lock_dir")); [discriminate |].
    intros [= <-]. apply has_error_set_error.
Qed.

Lemma walk_inl_error (filename : string) (l : list xmlNode) :
  forall ctx (config : cfg) r,
    walk ctx filename l config = inl r -> GC_HAS_ERROR r.1 = true.
Proof.
  induction l as [| n next IH]; intros ctx config r; simpl; [discriminate |].
  destruct (dispatch ctx filename n config) as [r' | [c g]] eqn:E.
  - intros [= <-]. now apply dispatch_inl_error in E.
  - apply IH.
Qed.

(** What a compilation that ends without an error went through. *)
Lemma compile_success (ctx : geocache_context) (filename : string) (config : cfg) :
  GC_HAS_ERROR (geocache_configuration_parse ctx filename config).1 = false ->
  exists root ctx' config',
    xmlReadFile filename = Some root
    /\ is_element root = true /\ node_name root = "geocache"
    /\ walk ctx filename (children root) config = inr (ctx', config')
    /\ geocache_configuration_parse ctx filename config = (ctx', config')
    /\ apr_dir_make_recursive (lockdir config') = true
    /\ apr_file_open (lockdir config' +:+ "/test.lock") = true
    /\ service_enabled config' GEOCACHE_SERVICE_WMS
       || service_enabled config' GEOCACHE_SERVICE_TMS = true.
Proof.
  unfold geocache_configuration_parse.
  destruct (xmlReadFile filename) as [root |];
    [| simpl; rewrite has_error_set_error; discriminate].
  destruct (is_element root) eqn:He;
    [| simpl; rewrite has_error_set_error; discriminate].
  destruct (zero (xmlStrcmp (node_name root) "geocache")) eqn:Hn;
    [| simpl; rewrite has_error_set_error; discriminate].
  apply xmlStrcmp_zero in Hn. simpl.
  destruct (walk ctx filename (children root) config) as [r | [ctx' config']] eqn:Hw.
  { apply walk_inl_error in Hw. congruence. }
  unfold postconditions.
  destruct (apr_dir_make_recursive (lockdir config')) eqn:Hd;
    [| simpl; rewrite has_error_set_error; discriminate].
  destruct (apr_file_open (lockdir config' +:+ "/test.lock")) eqn:Hf;
    [| simpl; rewrite has_error_set_error; discriminate].
  simpl.
  destruct (service_enabled config' GEOCACHE_SERVICE_WMS) eqn:Ew,
    (service_enabled config' GEOCACHE_SERVICE_TMS) eqn:Et; simpl;
    try (rewrite has_error_set_error; discriminate);
    intros _; exists root, ctx', config'; repeat split; try assumption;
    rewrite Ew, Et; reflexivity.
Qed.

(** X13: When the compilation ends without an error, the file was read, its
    root is the element [geocache], the lock directory of the result could
    be made and a file could be made in it, and a service is enabled. *)
Theorem compilation_without_error (ctx : geocache_context) (filename : string)
    (config : cfg) :
  let r := geocache_configuration_parse ctx filename config in
  GC_HAS_ERROR r.1 = false ->
  (exists root, xmlReadFile filename = Some root
                /\ is_element root = true /\ node_name root = "geocache")
  /\ apr_dir_make_recursive (lockdir r.2) = true
  /\ apr_file_open (lockdir r.2 +:+ "/test.lock") = true
  /\ (service_enabled r.2 GEOCACHE_SERVICE_WMS = true
      \/ service_enabled r.2 GEOCACHE_SERVICE_TMS = true).
Proof.
  intros r Hok.
  destruct (compile_success ctx filename config Hok)
    as (root & ctx' & config' & Hr & He & Hn & _ & E & Hd & Hf & Hs).
  subst r. rewrite E. simpl. apply orb_true_iff in Hs. eauto 10.
Qed.

(** The parsers leave the lock directory and the services alone. *)
Lemma parsers_keep_settings (ctx : geocache_context) (c : xmlNode) (config : cfg) :
  same_settings config (parseSource ctx c config).2
  /\ same_settings config (parseCache ctx c config).2
  /\ same_settings config (parseFormat ctx c config).2
  /\ same_settings config (parseTileset ctx c config).2.
Proof.
  unfold same_settings. repeat split.
  all: try (destruct (parseSource_outcome ctx c config)
              as [[_ ->] | (? & ? & _ & _ & _ & ->)]; reflexivity).
  all: try (destruct (parseCache_outcome ctx c config)
              as [[_ ->] | (? & ? & _ & _ & _ & ->)]; reflexivity).
  all: try (destruct (parseFormat_outcome ctx c config)
              as [-> | (? & ? & _ & _ & ->)]; reflexivity).
  all: destruct (parseTileset_outcome ctx c config)
         as [[? ->] | (? & ? & ? & _ & _ & _ & _ & _ & _ & _ & _ & ->)]; reflexivity.
Qed.

(** The lock directory and the services after one child of the root, when
    the loop goes on. *)
Lemma dispatch_inr_settings (ctx ctx' : geocache_context) (filename : string)
    (c : xmlNode) (config config' : cfg) :
  dispatch ctx filename c config = inr (ctx', config') ->
  lockdir config'
  = (if is_child "lock_dir" c then xmlNodeGetContent c else lockdir config)
  /\ services config'
     = (if is_child "services" c
        then services (services_children ctx (children c) config)
        else services config).
Proof.
  destruct (parsers_keep_settings ctx c config)
    as ((_ & S1 & S1') & (_ & S2 & S2') & (_ & S3 & S3') & (_ & S4 & S4')).
  unfold dispatch, is_child. cbv zeta beta.
  destruct (is_element c); simpl; [| intros [= <- <-]; auto].
  destruct (zero (xmlStrcmp (node_name c) "source")) eqn:E.
  { apply xmlStrcmp_zero in E. rewrite E. decide_tags.
    destruct (GC_HAS_ERROR _); [discriminate |]. intros [= H].
    rewrite H in S1, S1'. simpl in *. auto. }
  destruct (zero (xmlStrcmp (node_name c) "cache")) eqn:E1.
  { apply xmlStrcmp_zero in E1. rewrite E1. decide_tags.
    destruct (GC_HAS_ERROR _); [discriminate |]. intros [= H].
    rewrite H in S2, S2'. simpl in *. auto. }
  destruct (zero (xmlStrcmp (node_name c) "format")) eqn:E2.
  { apply xmlStrcmp_zero in E2. rewrite E2. decide_tags.
    destruct (GC_HAS_ERROR _); [discriminate |]. intros [= H].
    rewrite H in S3, S3'. simpl in *. auto. }
  destruct (zero (xmlStrcmp (node_name c) "tileset")) eqn:E3.
  { apply xmlStrcmp_zero in E3. rewrite E3. decide_tags.
    destruct (GC_HAS_ERROR _); [discriminate |]. intros [= H].
    rewrite H in S4, S4'. simpl in *. auto. }
  destruct (zero (xmlStrcmp (node_name c) "services")) eqn:E4.
  { apply xmlStrcmp_zero in E4. rewrite E4. decide_tags. intros [= <- <-].
    destruct (services_children_frame ctx (children c) config) as (_ & _ & _ & _ & _ & L & _).
    simpl. auto. }
  destruct (zero (xmlStrcmp (node_name c) "merge_format")) eqn:E5.
  { apply xmlStrcmp_zero in E5. rewrite E5. decide_tags.
    destruct (geocache_configuration_get_image_format config (xmlNodeGetContent c));
      [| discriminate].
    intros [= <- <-]. simpl. auto. }
  destruct (zero (xmlStrcmp (node_name c) "lock_dir")); [| discriminate].
  intros [= <- <-]. simpl. auto.
Qed.

Lemma walk_lockdir (filename : string) (l : list xmlNode) :
  forall ctx ctx' (config config' : cfg),
    walk ctx filename l config = inr (ctx', config') ->
    lockdir config'
    = match last_child "lock_dir" l with
      | Some n => xmlNodeGetContent n
      | None => lockdir config
      end.
Proof.
  induction l as [| n next IH]; intros ctx ctx' config config'; simpl.
  - now intros [= _ <-].
  - destruct (dispatch ctx filename n config) as [r | [c g]] eqn:E; [discriminate |].
    intros H. rewrite (IH _ _ _ _ H).
    destruct (last_child "lock_dir" next); [reflexivity |].
    apply dispatch_inr_settings in E as [E _]. rewrite E.
    destruct (is_child "lock_dir" n); reflexivity.
Qed.

Lemma service_enabled_ext (c1 c2 : cfg) (i : nat) :
  services c1 = services c2 -> service_enabled c1 i = service_enabled c2 i.
Proof. unfold service_enabled. now intros ->. Qed.

Lemma walk_services (filename : string) (l : list xmlNode) :
  forall ctx ctx' (config config' : cfg),
    length (services config) = GEOCACHE_SERVICES_COUNT ->
    walk ctx filename l config = inr (ctx', config') ->
    service_enabled config' GEOCACHE_SERVICE_WMS
    = service_enabled config GEOCACHE_SERVICE_WMS || existsb (enabling_block "wms") l
    /\ service_enabled config' GEOCACHE_SERVICE_TMS
       = service_enabled config GEOCACHE_SERVICE_TMS || existsb (enabling_block "tms") l.
Proof.
  induction l as [| n next IH]; intros ctx ctx' config config' Hlen; simpl.
  - intros [= _ <-]. now rewrite !orb_false_r.
  - destruct (dispatch ctx filename n config) as [r | [c g]] eqn:E; [discriminate |].
    intros H. apply dispatch_inr_settings in E as [_ E].
    destruct (services_children_frame ctx (children n) config)
      as (_ & _ & _ & _ & _ & _ & L).
    destruct (services_children_enabled ctx (children n) config Hlen) as [B1 B2].
    assert (length (services g) = GEOCACHE_SERVICES_COUNT) as Hg.
    { rewrite E. destruct (is_child "services" n); congruence. }
    destruct (IH _ _ _ _ Hg H) as [I1 I2]. rewrite I1, I2.
    destruct (is_child "services" n) eqn:Ec; unfold enabling_block; rewrite Ec; simpl.
    + rewrite (service_enabled_ext g _ GEOCACHE_SERVICE_WMS E),
        (service_enabled_ext g _ GEOCACHE_SERVICE_TMS E), B1, B2.
      now rewrite !orb_assoc.
    + now rewrite (service_enabled_ext g _ GEOCACHE_SERVICE_WMS E),
        (service_enabled_ext g _ GEOCACHE_SERVICE_TMS E).
Qed.

(** X14: When the compilation ends without an error, the lock directory of the
    result, the one that was probed, is the text of the last [lock_dir]
    child of the root, or the lock directory that the configuration had when
    the root has no such child. *)
Theorem lock_directory_of_compilation (ctx : geocache_context) (filename : string)
    (config : cfg) (root : xmlNode) :
  xmlReadFile filename = Some root ->
  GC_HAS_ERROR (geocache_configuration_parse ctx filename config).1 = false ->
  lockdir (geocache_configuration_parse ctx filename config).2
  = match last_child "lock_dir" (children root) with
    | Some n => xmlNodeGetContent n
    | None => lockdir config
    end.
Proof.
  intros Hread Hok.
  destruct (compile_success ctx filename config Hok)
    as (root' & ctx' & config' & Hr & _ & _ & Hw & E & _).
  assert (root' = root) as -> by congruence.
  rewrite E. simpl. now apply (walk_lockdir filename _ ctx ctx').
Qed.

(** X15: When the compilation ends without an error, a service is enabled in
    the result exactly when it was enabled in the configuration given or a
    [services] block under the root has an entry for it with another text
    than "false". *)
Theorem services_of_compilation (ctx : geocache_context) (filename : string)
    (config : cfg) (root : xmlNode) :
  length (services config) = GEOCACHE_SERVICES_COUNT ->
  xmlReadFile filename = Some root ->
  GC_HAS_ERROR (geocache_configuration_parse ctx filename config).1 = false ->
  let c := (geocache_configuration_parse ctx filename config).2 in
  service_enabled c GEOCACHE_SERVICE_WMS
  = service_enabled config GEOCACHE_SERVICE_WMS
    || existsb (enabling_block "wms") (children root)
  /\ service_enabled c GEOCACHE_SERVICE_TMS
     = service_enabled config GEOCACHE_SERVICE_TMS
       || existsb (enabling_block "tms") (children root).
Proof.
  intros Hlen Hread Hok c.
  destruct (compile_success ctx filename config Hok)
    as (root' & ctx' & config' & Hr & _ & _ & Hw & E & _).
  assert (root' = root) as -> by congruence.
  subst c. rewrite E. simpl. now apply (walk_services filename _ ctx ctx').
Qed.

End Success.

(** ** Mandatory attributes and known types *)

Section Attributes.

Context {double : Type} {DBL : c_double double}.
Context {SRC : source_driver} {CCH : cache_driver}.
Local Abbreviation cfg := (geocache_cfg double).

(** X16: A node of the right tag without a [name] attribute, or with an empty
    one, is refused by its parser with a report that names the tag; nothing
    is registered. *)
Theorem name_is_mandatory (ctx : geocache_context) (node : xmlNode) (config : cfg) :
  name_attribute node = None ->
  (node_name node = "source" ->
   parseSource ctx node config
   = (set_error ctx GEOCACHE_PARSE_ERROR
        ("mandatory attribute " +:+ quoted "name" +:+ " not found in <source>"), config))
  /\ (node_name node = "cache" ->
      parseCache ctx node config
      = (set_error ctx GEOCACHE_PARSE_ERROR
           ("mandatory attribute " +:+ quoted "name" +:+ " not found in <cache>"), config))
  /\ (node_name node = "format" ->
      parseFormat ctx node config
      = (set_error ctx GEOCACHE_PARSE_ERROR
           ("mandatory attribute " +:+ quoted "name" +:+ " not found in <format>"), config))
  /\ (node_name node = "tileset" ->
      parseTileset ctx node config
      = (set_error ctx GEOCACHE_PARSE_ERROR
           ("mandatory attribute " +:+ quoted "name" +:+ " not found in <tileset>"),
         config)).
Proof.
  unfold name_attribute, parseSource, parseCache, parseFormat, parseTileset.
  destruct (extractNameAndTypeAttributes (properties node)) as [[rc nm] ty].
  cbn [fst snd]. intros ->.
  repeat split; intros ->; rewrite xmlStrcmp_refl; reflexivity.
Qed.

(** X17: A source, a cache or a format with a free name and a type that is
    not known ([wms]; [disk]; [PNG] and [JPEG]) is refused with a report
    that names the type and the entity, whatever its children are; and a
    tileset is parsed in the same way whatever its [type] attribute is. *)
Theorem type_must_be_known (ctx : geocache_context) (node : xmlNode) (config : cfg)
    (name type : string) :
  name_attribute node = Some name -> type_attribute node = Some type ->
  (node_name node = "source" -> sources config !! name = None -> type <> "wms" ->
   parseSource ctx node config
   = (set_error ctx GEOCACHE_PARSE_ERROR
        ("unknown source type " +:+ type +:+ " for source " +:+ quoted name), config))
  /\ (node_name node = "cache" -> caches config !! name = None -> type <> "disk" ->
      parseCache ctx node config
      = (set_error ctx GEOCACHE_PARSE_ERROR
           ("unknown cache type " +:+ type +:+ " for cache " +:+ quoted name), config))
  /\ (node_name node = "format" -> type <> "PNG" -> type <> "JPEG" ->
      parseFormat ctx node config
      = (set_error ctx GEOCACHE_PARSE_ERROR
           ("unknown format type " +:+ type +:+ " for format " +:+ quoted name), config))
  /\ (forall node' : xmlNode,
        node_name node' = node_name node -> name_attribute node' = Some name ->
        children node' = children node ->
        parseTileset ctx node' config = parseTileset ctx node config).
Proof.
  unfold name_attribute, type_attribute, parseSource, parseCache, parseFormat.
  destruct (extractNameAndTypeAttributes (properties node)) as [[rc nm] ty] eqn:Ex.
  cbn [fst snd]. intros Hn Ht. rewrite Hn, Ht. repeat split.
  - intros -> Hfree Hty. rewrite xmlStrcmp_refl. simpl.
    unfold geocache_configuration_get_source. rewrite Hfree.
    now rewrite (strcmp_neq _ _ Hty).
  - intros -> Hfree Hty. rewrite xmlStrcmp_refl. simpl.
    unfold geocache_configuration_get_cache. rewrite Hfree.
    now rewrite (strcmp_neq _ _ Hty).
  - intros -> H1 H2. rewrite xmlStrcmp_refl. simpl.
    now rewrite (strcmp_neq _ _ H1), (strcmp_neq _ _ H2).
  - intros node' Htag Hname Hch. unfold parseTileset, name_attribute in *.
    rewrite Htag, Hch, Ex.
    destruct (extractNameAndTypeAttributes (properties node')) as [[rc' nm'] ty'].
    cbn [fst snd] in *. now rewrite Hname, Hn.
Qed.

End Attributes.

(** ** The configuration compiled from scratch *)

Section FromScratch.

Context {double : Type}.
Local Abbreviation cfg := (geocache_cfg double).

Lemma create_formats_valid : formats_valid (geocache_configuration_create : cfg).
Proof.
  assert (forall key f,
            image_formats (geocache_configuration_create : cfg) !! key = Some f ->
            format_valid f) as H.
  { intros key f. simpl. rewrite !lookup_insert, lookup_empty.
    repeat case_decide; intros [= <-]; simpl; lia. }
  split; [exact H |]. split.
  - intros f Hf. apply (H "PNG" f). exact Hf.
  - intros key t f. simpl. now rewrite lookup_empty.
Qed.

Lemma create_references_resolved :
  references_resolved (geocache_configuration_create : cfg).
Proof. intros key t. simpl. now rewrite lookup_empty. Qed.

End FromScratch.

(** ** The properties on documents *)

(** A source added under [a] is found under [a], and [b] is as before. *)
Lemma registry_add_get_witness :
  let c := geocache_configuration_add_source cfg0 (Source (Some "a") None) "a" in
  geocache_configuration_get_source c "a" = Some (Source (Some "a") None)
  /\ geocache_configuration_get_source c "b" = None.
Proof.
  intros c.
  destruct (registry_add_get cfg0 "a" "b" (Source (Some "a") None) (Cache (Some "a"))
              (geocache_tileset_create ctx0) (JpegFormat "a" 95))
    as ((H1 & H2 & _) & _); [discriminate |].
  subst c. split; [exact H1 | rewrite H2; reflexivity].
Defined.

(** Parsing the source [wms1] leaves the name [other] and the caches. *)
Lemma parsers_touch_own_registry_witness :
  let node := elem "source" [attr "name" "wms1"; attr "type" "wms"] [] in
  let c := (parseSource ctx0 node cfg_ready).2 in
  sources c !! "other" = sources cfg_ready !! "other" /\ caches c = caches cfg_ready.
Proof.
  intros node c.
  destruct (parsers_touch_own_registry ctx0 node cfg_ready "other")
    as ((H1 & H2 & _) & _); [intros E; vm_compute in E; discriminate |].
  split; [exact H1 | exact H2].
Defined.

(** The source [wms1] of the prepared configuration is still there after
    the example document, which defines it again, was refused. *)
Lemma registrations_are_permanent_witness :
  sources (geocache_configuration_parse (SYS := one_file example_document true)
             ctx0 "geocache.xml" cfg_ready).2 !! "wms1"
  = Some (Source (Some "wms1") (Some "EPSG:4326")).
Proof.
  destruct (registrations_are_permanent (SYS := one_file example_document true)
              ctx0 "geocache.xml" cfg_ready "wms1") as (H & _).
  apply H. reflexivity.
Defined.

(** The example document, compiled from the fresh configuration. *)
Lemma references_stay_resolved_witness :
  references_resolved
    (geocache_configuration_parse (SYS := one_file example_document true)
       ctx0 "geocache.xml" cfg0).2.
Proof.
  apply (references_stay_resolved (SYS := one_file example_document true)).
  apply create_references_resolved.
Defined.

Lemma formats_stay_valid_witness :
  formats_valid
    (geocache_configuration_parse (SYS := one_file example_document true)
       ctx0 "geocache.xml" cfg0).2.
Proof.
  apply (formats_stay_valid (SYS := one_file example_document true)).
  apply create_formats_valid.
Defined.

(** The tileset of the example with a [title] and a [keywords] child and
    text between its children is parsed as the tileset of the example. *)
Lemma tileset_ignores_unrecognised_witness :
  let node := elem "tileset" [attr "name" "t1"]
                (text " " :: elem "title" [] [text "World"] :: children example_tileset
                 ++ [leaf "keywords" "osm"]) in
  parseTileset ctx0 node cfg_ready = parseTileset ctx0 example_tileset cfg_ready.
Proof.
  intros node.
  apply tileset_ignores_unrecognised; reflexivity.
Defined.

(** A tileset without an [srs] child. *)
Lemma tileset_needs_cache_source_srs_witness :
  let node := elem "tileset" [attr "name" "t5"]
                [leaf "cache" "diskcache"; leaf "source" "wms1";
                 leaf "extent" "-180 -90 180 90"; leaf "resolutions" "1 2"] in
  exists msg, parseTileset ctx0 node cfg_ready
              = (set_error ctx0 GEOCACHE_PARSE_ERROR msg, cfg_ready).
Proof.
  intros node. apply tileset_needs_cache_source_srs. right. right. reflexivity.
Defined.

(** A tileset whose second child names a source that is not registered. *)
Lemma tileset_dangling_reference_witness :
  let node := elem "tileset" [attr "name" "t5"]
                [leaf "cache" "diskcache"; leaf "source" "nowhere"; leaf "srs" "EPSG:4326"] in
  parseTileset ctx0 node cfg_ready
  = (set_error ctx0 GEOCACHE_PARSE_ERROR
       ("tileset " +:+ quoted "t5" +:+ " references source " +:+ quoted "nowhere"
        +:+ "," +:+ " but it is not configured"), cfg_ready).
Proof.
  intros node.
  destruct (tileset_children ctx0 "t5" cfg_ready [leaf "cache" "diskcache"]
              (set_name (geocache_tileset_create ctx0) (Some "t5"))) as [c | t] eqn:E;
    [vm_compute in E; discriminate |].
  destruct (tileset_dangling_reference ctx0 node (leaf "source" "nowhere") cfg_ready "t5"
              [leaf "cache" "diskcache"] [leaf "srs" "EPSG:4326"] t)
    as (_ & H & _);
    [reflexivity | reflexivity | reflexivity | reflexivity | exact E |].
  apply H; reflexivity.
Defined.

(** A tileset with metatiles and the format [JPEG] keeps that format. *)
Lemma tileset_explicit_format_witness :
  let node := elem "tileset" [attr "name" "t6"]
                [leaf "cache" "diskcache"; leaf "source" "wms1"; leaf "srs" "EPSG:4326";
                 leaf "extent" "-180 -90 180 90"; leaf "resolutions" "1 2";
                 leaf "metatile" "4 4"; leaf "format" "JPEG"] in
  exists ts, tilesets (parseTileset ctx0 node cfg_ready).2 !! "t6" = Some ts
             /\ tileset_format ts = Some (JpegFormat "JPEG" 95).
Proof.
  intros node.
  destruct (tilesets (parseTileset ctx0 node cfg_ready).2 !! "t6") as [ts |] eqn:E;
    [| vm_compute in E; discriminate].
  exists ts. split; [reflexivity |].
  destruct (tileset_explicit_format ctx0 node (leaf "format" "JPEG") cfg_ready "t6" ts)
    as [H _]; [reflexivity | exact E | reflexivity |].
  rewrite H. reflexivity.
Defined.

(** A PNG format with the best effort and 16 colors. *)
Lemma format_built_from_children_witness :
  let node := elem "format" [attr "name" "q"; attr "type" "PNG"]
                [leaf "compression" "fast"; leaf "colors" "16"; leaf "compression" "best"] in
  (parseFormat ctx0 node cfg0).2
  = geocache_configuration_add_image_format cfg0
      (Some (PngQFormat "q" GEOCACHE_COMPRESSION_BEST 16)) "q".
Proof.
  intros node.
  destruct (format_built_from_children ctx0 node cfg0 "q") as [H _];
    [reflexivity | reflexivity | reflexivity |].
  rewrite H; reflexivity.
Defined.

(** The example document compiles, with the service [wms] and the lock
    directory of the fresh configuration. *)
Lemma compilation_without_error_witness :
  let r := geocache_configuration_parse (SYS := one_file example_document true)
             ctx0 "geocache.xml" cfg0 in
  service_enabled r.2 GEOCACHE_SERVICE_WMS = true
  \/ service_enabled r.2 GEOCACHE_SERVICE_TMS = true.
Proof.
  intros r.
  destruct (compilation_without_error (SYS := one_file example_document true)
              ctx0 "geocache.xml" cfg0) as (_ & _ & _ & H); [reflexivity |].
  exact H.
Defined.

(** A document that sets the lock directory twice. *)
Lemma lock_directory_of_compilation_witness :
  let doc := elem "geocache" []
               [leaf "lock_dir" "/var/lock/a"; elem "services" [] [elem "tms" [] []];
                leaf "lock_dir" "/var/lock/b"] in
  lockdir (geocache_configuration_parse (SYS := one_file doc true)
             ctx0 "geocache.xml" cfg0).2 = "/var/lock/b".
Proof.
  intros doc.
  rewrite (lock_directory_of_compilation (SYS := one_file doc true)
             ctx0 "geocache.xml" cfg0 doc); reflexivity.
Defined.

Lemma services_of_compilation_witness :
  let c := (geocache_configuration_parse (SYS := one_file example_document true)
              ctx0 "geocache.xml" cfg0).2 in
  service_enabled c GEOCACHE_SERVICE_WMS = true
  /\ service_enabled c GEOCACHE_SERVICE_TMS = false.
Proof.
  intros c.
  destruct (services_of_compilation (SYS := one_file example_document true)
              ctx0 "geocache.xml" cfg0 example_document) as [H1 H2];
    try reflexivity.
  subst c. rewrite H1, H2. split; reflexivity.
Defined.

(** A source without attributes, and a source of the type [wmts]. *)
Lemma name_is_mandatory_witness :
  parseSource ctx0 (elem "source" [] []) cfg0
  = (set_error ctx0 GEOCACHE_PARSE_ERROR
       ("mandatory attribute " +:+ quoted "name" +:+ " not found in <source>"), cfg0).
Proof.
  destruct (name_is_mandatory ctx0 (elem "source" [] []) cfg0) as (H & _);
    [reflexivity |].
  apply H. reflexivity.
Defined.

Lemma type_must_be_known_witness :
  parseSource ctx0 (elem "source" [attr "name" "s"; attr "type" "wmts"] []) cfg0
  = (set_error ctx0 GEOCACHE_PARSE_ERROR
       ("unknown source type " +:+ "wmts" +:+ " for source " +:+ quoted "s"), cfg0).
Proof.
  destruct (type_must_be_known ctx0 (elem "source" [attr "name" "s"; attr "type" "wmts"] [])
              cfg0 "s" "wmts") as (H & _); [reflexivity | reflexivity |].
  apply H; [reflexivity | reflexivity | discriminate].
Defined.

(** ** The variants of sources and caches *)

(** X18: The loop over the children of a source keeps the name of the source
    and gives it the text of its last [srs] child, or leaves its srs when
    there is no such child. *)
Theorem source_srs_last_wins (l : list xmlNode) (source : geocache_source) :
  source_name (source_children l source) = source_name source
  /\ source_srs (source_children l source)
     = match last_child "srs" l with
       | Some n => Some (xmlNodeGetContent n)
       | None => source_srs source
       end.
Proof.
  revert source. induction l as [| n next IH]; intros source; simpl; [auto |].
  unfold is_child. destruct (is_element n); simpl.
  - destruct (zero (xmlStrcmp (node_name n) "srs")).
    + destruct (IH (Source (source_name source) (Some (xmlNodeGetContent n))))
        as [H1 H2].
      rewrite H1, H2. destruct (last_child "srs" next); auto.
    + destruct (IH source) as [H1 H2]. rewrite H1, H2.
      destruct (last_child "srs" next); auto.
  - destruct (IH source) as [H1 H2]. rewrite H1, H2.
    destruct (last_child "srs" next); auto.
Qed.

Section Variants.

Context {double : Type} {DBL : c_double double}.
Context {SRC : source_driver} {CCH : cache_driver}.
Local Abbreviation cfg := (geocache_cfg double).

(** X19: When the configuration method of the variant leaves an error, the
    source (the cache) is not registered and the result is what that method
    left: the check method has no part in it.  The source that the method
    receives has the name of the node and the srs of its last [srs] child. *)
Theorem variant_failure_ends_parsing (ctx : geocache_context) (node : xmlNode)
    (config : cfg) (name : string) :
  name_attribute node = Some name ->
  (forall created,
      node_name node = "source" -> sources config !! name = None ->
      type_attribute node = Some "wms" ->
      geocache_source_wms_create ctx = Some created ->
      let given := source_children (children node)
                     (Source (Some name) (source_srs created)) in
      GC_HAS_ERROR (source_configuration_parse ctx node given).1 = true ->
      parseSource ctx node config = ((source_configuration_parse ctx node given).1, config))
  /\ (forall created,
        node_name node = "cache" -> caches config !! name = None ->
        type_attribute node = Some "disk" ->
        geocache_cache_disk_create ctx = Some created ->
        GC_HAS_ERROR (cache_configuration_parse ctx node (Cache (Some name))).1 = true ->
        parseCache ctx node config
        = ((cache_configuration_parse ctx node (Cache (Some name))).1, config)).
Proof.
  unfold name_attribute, type_attribute, parseSource, parseCache.
  destruct (extractNameAndTypeAttributes (properties node)) as [[rc nm] ty].
  cbn [fst snd]. intros Hn. rewrite Hn. split.
  - intros created -> Hfree Hty Hc Herr. rewrite xmlStrcmp_refl. simpl.
    unfold geocache_configuration_get_source. rewrite Hfree, Hty.
    change (zero (strcmp "wms" "wms")) with true. cbv iota. rewrite Hc.
    match type of Herr with
    | GC_HAS_ERROR (?x).1 = true => destruct x as [c s]
    end.
    simpl in *. now rewrite Herr.
  - intros created -> Hfree Hty Hc Herr. rewrite xmlStrcmp_refl. simpl.
    unfold geocache_configuration_get_cache. rewrite Hfree, Hty.
    change (zero (strcmp "disk" "disk")) with true. cbv iota. rewrite Hc.
    destruct (cache_configuration_parse ctx node (Cache (Some name))) as [c s].
    simpl in *. now rewrite Herr.
Qed.

End Variants.

(** A source variant whose configuration method always reports. *)
Lemma variant_failure_ends_parsing_witness :
  let failing : source_driver := {|
    geocache_source_wms_create := fun _ => Some (Source None None);
    source_configuration_parse := fun ctx _ source =>
      (set_error ctx GEOCACHE_PARSE_ERROR "wms source has no url", source);
    source_configuration_check := fun ctx source => (ctx, source)
  |} in
  parseSource (SRC := failing) ctx0
    (elem "source" [attr "name" "s"; attr "type" "wms"] []) cfg0
  = (set_error ctx0 GEOCACHE_PARSE_ERROR "wms source has no url", cfg0).
Proof.
  intros failing.
  destruct (variant_failure_ends_parsing (SRC := failing) ctx0
              (elem "source" [attr "name" "s"; attr "type" "wms"] []) cfg0 "s")
    as (H & _); [reflexivity |].
  rewrite (H (Source None None)); reflexivity.
Defined.

(** ** The text of the resolutions *)

Section Resolutions.

Context {double : Type} {DBL : c_double double}.
Local Abbreviation cfg := (geocache_cfg double).
Local Abbreviation tileset := (geocache_tileset double).








End Resolutions.



(** ** A node with the wrong tag *)

Section WrongTag.

Context {double : Type} {DBL : c_double double}.
Context {SRC : source_driver} {CCH : cache_driver}.
Local Abbreviation cfg := (geocache_cfg double).

(** C10: on a node with another tag than [format], [parseFormat] appends
    the report of the wrong tag and does not return: it goes on from the
    context with that report as it does for a [format] node.  It reads the
    attributes (a missing name or type, or an unknown type, gives a second
    report and no format) and the children (for PNG, an unknown child gives
    a second report and no format); without a second report the format is
    registered under the name, built from the last [colors] and
    [compression] children (PNG) or the last [quality] child (JPEG), within
    their ranges.  [parseSource], [parseCache] and [parseTileset], each on a
    node with another tag than its own, return with their report alone and
    leave the configuration as it is. *)
Theorem C10_wrong_tag_only_format_goes_on (ctx : geocache_context) (node : xmlNode)
    (config : cfg) :
  (node_name node <> "format" ->
   let ctx1 := set_error ctx GEOCACHE_PARSE_ERROR
                 ("SEVERE: <" +:+ node_name node +:+ "> is not a format tag") in
   let r := parseFormat ctx node config in
   (r.1 = ctx1 \/ exists msg, r.1 = set_error ctx1 GEOCACHE_PARSE_ERROR msg)
   /\ r = parseFormat ctx1 (relabel node "format") config
   /\ (name_attribute node = None ->
       r = (set_error ctx1 GEOCACHE_PARSE_ERROR
              ("mandatory attribute " +:+ quoted "name" +:+ " not found in <format>"),
            config))
   /\ (forall name,
         name_attribute node = Some name ->
         (type_attribute node = None ->
          r = (set_error ctx1 GEOCACHE_PARSE_ERROR
                 ("mandatory attribute " +:+ quoted "type" +:+ " not found in <format>"),
               config))
         /\ (forall type,
               type_attribute node = Some type -> type <> "PNG" -> type <> "JPEG" ->
               r = (set_error ctx1 GEOCACHE_PARSE_ERROR
                      ("unknown format type " +:+ type +:+ " for format "
                       +:+ quoted name), config))
         /\ (type_attribute node = Some "PNG" ->
             (forall pre n post c k,
                 children node = pre ++ n :: post ->
                 png_children ctx1 name pre (-1) GEOCACHE_COMPRESSION_DEFAULT = inr (c, k) ->
                 is_element n = true ->
                 node_name n <> "compression" -> node_name n <> "colors" ->
                 r = (set_error ctx1 GEOCACHE_PARSE_ERROR
                        ("unknown tag " +:+ node_name n +:+ " for format "
                         +:+ quoted name), config))
             /\ (r.1 = ctx1 ->
                 let effort := match last_child "compression" (children node) with
                               | Some n => compression_of (xmlNodeGetContent n)
                               | None => GEOCACHE_COMPRESSION_DEFAULT
                               end in
                 r.2 = geocache_configuration_add_image_format config
                         (Some match last_child "colors" (children node) with
                               | Some n => PngQFormat name effort (int_content n)
                               | None => PngFormat name effort
                               end) name
                 /\ match last_child "colors" (children node) with
                    | Some n => 2 <= int_content n <= 256
                    | None => True
                    end))
         /\ (type_attribute node = Some "JPEG" ->
             r.1 = ctx1 ->
             r.2 = geocache_configuration_add_image_format config
                     (Some (JpegFormat name
                              match last_child "quality" (children node) with
                              | Some n => int_content n
                              | None => 95
                              end)) name
             /\ match last_child "quality" (children node) with
                | Some n => 1 <= int_content n <= 100
                | None => True
                end)))
  /\ (node_name node <> "source" ->
      parseSource ctx node config
      = (set_error ctx GEOCACHE_PARSE_ERROR
           ("SEVERE: found tag " +:+ node_name node +:+ " instead of <source>"), config))
  /\ (node_name node <> "cache" ->
      parseCache ctx node config
      = (set_error ctx GEOCACHE_PARSE_ERROR
           ("SEVERE: <" +:+ node_name node +:+ "> is not a cache tag"), config))
  /\ (node_name node <> "tileset" ->
      parseTileset ctx node config
      = (set_error ctx GEOCACHE_PARSE_ERROR
           ("SEVERE: <" +:+ node_name node +:+ "> is not a tileset tag"), config)).
Proof.
  split; [| split; [| split]].
  2: { intros Hs. unfold parseSource. now rewrite (xmlStrcmp_neq _ _ Hs). }
  2: { intros Hc. unfold parseCache. now rewrite (xmlStrcmp_neq _ _ Hc). }
  2: { intros Ht. unfold parseTileset. now rewrite (xmlStrcmp_neq _ _ Ht). }
  intros Hf ctx1 r.
  assert (r = parseFormat ctx1 (relabel node "format") config) as Hgo.
  { subst r ctx1. unfold parseFormat. rewrite (xmlStrcmp_neq _ _ Hf). simpl node_name.
    rewrite xmlStrcmp_refl. reflexivity. }
  split; [| split; [exact Hgo |]]; clear Hgo; subst r;
    unfold parseFormat, name_attribute, type_attribute;
    rewrite (xmlStrcmp_neq _ _ Hf); cbv beta iota zeta delta [negb]; fold ctx1;
    destruct (extractNameAndTypeAttributes (properties node)) as [[rc nm] ty];
    cbn [fst snd].
  - destruct (nonempty nm) as [name |]; [| right; eauto].
    destruct (nonempty ty) as [type |]; [| right; eauto].
    destruct (zero (strcmp type "PNG")).
    + destruct (png_children ctx1 name (children node) (-1) GEOCACHE_COMPRESSION_DEFAULT)
        as [c | [colors compression]] eqn:El.
      * apply png_children_inl in El as [msg ->]. right; eauto.
      * left. destruct (colors =? -1); reflexivity.
    + destruct (zero (strcmp type "JPEG")); [| right; eauto].
      destruct (jpeg_children ctx1 name (children node) 95) as [c | quality] eqn:El.
      * apply jpeg_children_inl in El as [msg ->]. right; eauto.
      * left. reflexivity.
  - split; [intros ->; reflexivity |].
    intros name ->. split; [intros ->; reflexivity |]. split; [| split].
    + intros type -> H1 H2.
      now rewrite (strcmp_neq _ _ H1), (strcmp_neq _ _ H2).
    + intros ->. change (zero (strcmp "PNG" "PNG")) with true. cbv iota. split.
      * intros pre n post c k -> Hpre He Hn1 Hn2.
        now rewrite (png_unknown_tag_named ctx1 name pre post n c k He Hn1 Hn2 Hpre).
      * destruct (png_children ctx1 name (children node) (-1) GEOCACHE_COMPRESSION_DEFAULT)
          as [c | [colors compression]] eqn:El.
        -- apply png_children_inl in El as [msg ->]. intros Hok. simpl in Hok.
           now apply set_error_changes in Hok.
        -- intros _. apply png_children_last in El as [Hc ->].
           destruct (last_child "colors" (children node)) as [n |].
           ++ destruct Hc as [Hc Hr]. destruct (Z.eqb_spec colors (-1)); [lia |].
              simpl. rewrite <- Hc. split; [reflexivity | exact Hr].
           ++ subst colors. split; [reflexivity | exact I].
    + intros ->. change (zero (strcmp "JPEG" "PNG")) with false.
      change (zero (strcmp "JPEG" "JPEG")) with true. cbv iota.
      destruct (jpeg_children ctx1 name (children node) 95) as [c | quality] eqn:El.
      * apply jpeg_children_inl in El as [msg ->]. intros Hok. simpl in Hok.
        now apply set_error_changes in Hok.
      * intros _. apply jpeg_children_last in El.
        destruct (last_child "quality" (children node)) as [n |].
        -- destruct El as [-> Hr]. split; [reflexivity | exact Hr].
        -- subst quality. split; [reflexivity | exact I].
Qed.

End WrongTag.

(** A JPEG format written under the tag [image]: the wrong tag is reported
    and the format is registered with the quality of its child; a PNG format
    under that tag with an unknown child gets the two reports; the other
    parsers stop at the tag. *)
Lemma C10_wrong_tag_witness :
  let image := elem "image" [attr "name" "x"; attr "type" "JPEG"] [leaf "quality" "80"] in
  let sketch := elem "image" [attr "name" "y"; attr "type" "PNG"]
                  [leaf "colors" "16"; elem "gamma" [] []] in
  let wrong := (GEOCACHE_PARSE_ERROR, "SEVERE: <image> is not a format tag") in
  let r := parseFormat ctx0 image cfg0 in
  reports r.1 = [wrong]
  /\ image_formats r.2 !! "x" = Some (JpegFormat "x" 80)
  /\ parseFormat ctx0 sketch cfg0
     = (Ctx [wrong; (GEOCACHE_PARSE_ERROR, "unknown tag gamma for format " +:+ quoted "y")],
        cfg0)
  /\ (parseSource ctx0 image cfg0).2 = cfg0
  /\ (parseCache ctx0 image cfg0).2 = cfg0
  /\ (parseTileset ctx0 image cfg0).2 = cfg0.
Proof.
  intros image sketch wrong r.
  destruct (C10_wrong_tag_only_format_goes_on ctx0 image cfg0) as (Hf & Hs & Hc & Ht).
  destruct (C10_wrong_tag_only_format_goes_on ctx0 sketch cfg0) as (Hf' & _).
  destruct Hf as (_ & _ & _ & Hf); [simpl; discriminate |].
  destruct (Hf "x" eq_refl) as (_ & _ & _ & Hj).
  destruct Hf' as (_ & _ & _ & Hf'); [simpl; discriminate |].
  destruct (Hf' "y" eq_refl) as (_ & _ & [Hp _] & _); [reflexivity |].
  split; [reflexivity |]. split.
  - subst r. destruct (Hj eq_refl eq_refl) as [-> _]. reflexivity.
  - split.
    + rewrite (Hp [leaf "colors" "16"] (elem "gamma" [] []) [] 16 GEOCACHE_COMPRESSION_DEFAULT);
        try reflexivity; simpl; discriminate.
    + rewrite Hs, Hc, Ht by (simpl; discriminate). auto.
Defined.
